(** * star_parser: a shallow embedding of [star_parser.py]

    The development follows the source file top to bottom: Python string
    helpers used by the parser, the [StarParseError] exception, the
    [LineStream] line cursor, the [StarParser] recursive-descent routines,
    and then the properties of the parser.

    Conventions.
    - A Python [str] is a [string]; one [ascii] stands for one code point
      in the range 0..255.
    - [None]-able values are [option]s.
    - A method that mutates [self.stream] is a function from the stream to
      an [outcome] carrying the returned value and the updated stream; a
      raised exception is the [Raise] outcome.
    - [while] loops are [Fixpoint]s on a fuel argument; every caller
      supplies [S (lines_left s)], and [parse_total] shows that this is
      always enough. *)

From Stdlib Require Import String Ascii List Arith Lia Bool.
From stdpp Require Import base option list gmap strings.

Import ListNotations.
Local Open Scope string_scope.
Local Open Scope list_scope.

(** ** Python string operations *)

Module PyStr.

(** The line terminator, [\n]. *)
Definition LF : ascii := ascii_of_nat 10.
Definition nl : string := String LF EmptyString.

(** [str.isspace] on one code point below 256: TAB..CR, FS..US, space,
    NEL and NBSP. *)
Definition isspace (c : ascii) : bool :=
  let n := nat_of_ascii c in
  (Nat.leb 9 n && Nat.leb n 13) || (Nat.leb 28 n && Nat.leb n 32)
  || Nat.eqb n 133 || Nat.eqb n 160.

(** [s.startswith(prefix)] *)
Definition startswith (s prefix : string) : bool := String.prefix prefix s.

(** [s[n:]] *)
Fixpoint slice_from (n : nat) (s : string) : string :=
  match n, s with
  | O, _ => s
  | S _, EmptyString => EmptyString
  | S n', String _ s' => slice_from n' s'
  end.

Fixpoint lstrip (s : string) : string :=
  match s with
  | EmptyString => EmptyString
  | String c s' => if isspace c then lstrip s' else s
  end.

Definition reverse (s : string) : string :=
  string_of_list_ascii (rev (list_ascii_of_string s)).

Definition rstrip (s : string) : string := reverse (lstrip (reverse s)).

(** [s.strip()] *)
Definition strip (s : string) : string := rstrip (lstrip s).

(** [s.split()]: the maximal runs of non-whitespace characters, in
    order.  [tok] holds the characters of the token being read, last
    one first. *)
Definition flush (tok : list ascii) (rest : list string) : list string :=
  match tok with
  | [] => rest
  | _ :: _ => string_of_list_ascii (rev tok) :: rest
  end.

Fixpoint split_from (tok : list ascii) (s : string) : list string :=
  match s with
  | EmptyString => flush tok []
  | String c s' =>
      if isspace c then flush tok (split_from [] s')
      else split_from (c :: tok) s'
  end.

Definition split (s : string) : list string := split_from [] s.

(** [s] holds whitespace only (the case in which [s.split()] is empty). *)
Fixpoint only_whitespace (s : string) : bool :=
  match s with
  | EmptyString => true
  | String c s' => isspace c && only_whitespace s'
  end.

(** The carriage return, [\r]. *)
Definition CR : ascii := ascii_of_nat 13.

(** Universal newlines, the default of [open()] for reading text: [\r\n]
    and a [\r] on its own are both turned into [\n]. *)
Fixpoint translate_newlines (text : string) : string :=
  match text with
  | EmptyString => EmptyString
  | String c rest =>
      if Ascii.eqb c CR then
        match rest with
        | EmptyString => nl
        | String c' rest' =>
            if Ascii.eqb c' LF then String LF (translate_newlines rest')
            else String LF (translate_newlines rest)
        end
      else String c (translate_newlines rest)
  end.

(** The text cut after every [\n], each line keeping its terminator; a
    last line without terminator is yielded as it is. *)
Fixpoint cut_lines (text : string) : list string :=
  match text with
  | EmptyString => []
  | String c rest =>
      if Ascii.eqb c LF then nl :: cut_lines rest
      else match cut_lines rest with
           | [] => [String c EmptyString]
           | l :: ls => String c l :: ls
           end
  end.

(** Iterating over a text file opened with [open(filename)]: the decoded
    content, with its newlines translated, cut into lines. *)
Definition readlines (text : string) : list string :=
  cut_lines (translate_newlines text).

(** [str(x)] inside an f-string, for a value that is a [str] or [None] *)
Definition format (x : option string) : string :=
  match x with
  | Some s => s
  | None => "None"
  end.

End PyStr.

Import PyStr.

(** ** Data model *)

(** An open text file: what [LineStream.__init__] reads from it. *)
Record File : Type := mkFile {
  name : string;
  file_lines : list string
}.

(** The table built by [pandas.DataFrame.from_records(rows, columns=...)]:
    the column labels and the records, both in the order given. *)
Record Table : Type := mkTable {
  columns : list string;
  rows : list (list string)
}.

Definition from_records (rows : list (list string)) (columns : list string)
  : Table := mkTable columns rows.

(** [StarFile = Dict[str, pandas.DataFrame]] *)
Abbreviation StarFile := (gmap string Table).

(** [class LineStream]: [_iter] is the state of [enumerate(iter(file))],
    the next index together with the lines not yet produced. *)
Record LineStream : Type := mkLineStream {
  fname : string;
  _iter : nat * list string;
  _curr : option (nat * string)
}.

(** The values that reach [StarParseError.__init__] as arguments. *)
Inductive pyobj : Type :=
| PyString (s : string)
| PyLineStream (s : LineStream).

(** Exceptions that can leave the parser. *)
Inductive exn : Type :=
| StarParseError (filename : string) (row : nat) (description : pyobj)
| TypeError (msg : string)
| AttributeError (msg : string)
| IndexError (msg : string).

Inductive outcome (A : Type) : Type :=
| Ok (a : A)
| Raise (e : exn)
| OutOfFuel.

Arguments Ok {A} a.
Arguments Raise {A} e.
Arguments OutOfFuel {A}.

(** ** class LineStream *)

Module Stream.

(** [next(self._iter)]: [None] stands for [StopIteration].  The source
    is one that yields its lines, all of them [str], and then stops; a
    source whose own iteration raises (a decoding or I/O error while the
    file is read) is outside this model: [LineStream.next] catches
    [StopIteration] only, so such an exception would pass through every
    routine unchanged. *)
Definition iter_next (it : nat * list string)
  : option ((nat * string) * (nat * list string)) :=
  match it with
  | (_, []) => None
  | (i, l :: ls) => Some ((i, l), (S i, ls))
  end.

(** [LineStream.next] *)
Definition next (s : LineStream) : LineStream :=
  match iter_next (_iter s) with
  | Some (item, it) => mkLineStream (fname s) it (Some item)
  | None => mkLineStream (fname s) (_iter s) None
  end.

(** [LineStream.__init__] *)
Definition init (file : File) : LineStream :=
  next (mkLineStream (name file) (0, file_lines file) None).

(** [LineStream.row] *)
Definition row (s : LineStream) : outcome nat :=
  match _curr s with
  | Some (i, _) => Ok (i + 1)
  | None => Raise (TypeError "'NoneType' object is not subscriptable")
  end.

(** [LineStream.curr] *)
Definition curr (s : LineStream) : option string :=
  match _curr s with
  | Some (_, line) => Some line
  | None => None
  end.

(** Lines still to be looked at: the current one and those not yet
    pulled from the iterator. *)
Definition lines_left (s : LineStream) : nat :=
  match _curr s with
  | Some _ => S (length (snd (_iter s)))
  | None => length (snd (_iter s))
  end.

End Stream.

(** ** class StarParseError *)

(** [StarParseError(args...)]: the value of the constructor call, which is
    itself an exception when [__init__] cannot bind or use its
    arguments. *)
Definition StarParseError_init (args : list pyobj) : outcome exn :=
  match args with
  | [] =>
      Raise (TypeError
        "StarParseError.__init__() missing 2 required positional arguments: 'stream' and 'descr'")
  | [_] =>
      Raise (TypeError
        "StarParseError.__init__() missing 1 required positional argument: 'descr'")
  | PyString _ :: _ :: _ =>
      Raise (AttributeError "'str' object has no attribute 'fname'")
  | PyLineStream stream :: descr :: _ =>
      match Stream.row stream with
      | Ok r => Ok (StarParseError (fname stream) r descr)
      | Raise e => Raise e
      | OutOfFuel => OutOfFuel
      end
  end.

(** ** The parser monad: state [self.stream], exceptions *)

Definition parser (A : Type) : Type := LineStream -> outcome (A * LineStream).

Definition ret {A} (a : A) : parser A := fun s => Ok (a, s).

Definition bind {A B} (p : parser A) (k : A -> parser B) : parser B :=
  fun s =>
    match p s with
    | Ok (a, s') => k a s'
    | Raise e => Raise e
    | OutOfFuel => OutOfFuel
    end.

Definition raise {A} (e : exn) : parser A := fun _ => Raise e.

Definition out_of_fuel {A} : parser A := fun _ => OutOfFuel.

Notation "x <~ p ;; k" := (bind p (fun x => k))
  (at level 100, p at next level, right associativity).
Notation "p ;;; k" := (bind p (fun _ => k))
  (at level 100, right associativity).

(** The statement [raise StarParseError(args...)] *)
Definition raise_StarParseError {A} (args : list pyobj) : parser A :=
  fun _ =>
    match StarParseError_init args with
    | Ok e => Raise e
    | Raise e => Raise e
    | OutOfFuel => OutOfFuel
    end.

(** The result of running a method, without the final stream. *)
Definition value_of {A} (o : outcome (A * LineStream)) : outcome A :=
  match o with
  | Ok (a, _) => Ok a
  | Raise e => Raise e
  | OutOfFuel => OutOfFuel
  end.

(** ** class StarParser *)

Module StarParser.

(** Reading [self.stream.curr] and calling [self.stream.next()]. *)
Definition curr : parser (option string) := fun s => Ok (Stream.curr s, s).
Definition next : parser unit := fun s => Ok (tt, Stream.next s).

(** A loop started with enough fuel for the lines that are left. *)
Definition while_lines_left {A} (loop : nat -> parser A) : parser A :=
  fun s => loop (S (Stream.lines_left s)) s.

(** [StarParser.accept]; [item] is a [str] or [None]. *)
Definition accept (item : option string) : parser bool :=
  c <~ curr ;;
  if decide (c = item) then (next ;;; ret true) else ret false.

(** [StarParser.expect] *)
Definition expect (item : option string) : parser unit :=
  ok <~ accept item ;;
  if negb ok then
    c <~ curr ;;
    raise_StarParseError
      [PyString ("expected '" +:+ format item +:+ "', found '"
                 +:+ format c +:+ "'")]
  else ret tt.

(** [StarParser.parse_data_name] *)
Definition parse_data_name : parser (option string) :=
  c <~ curr ;;
  match c with
  | None =>
      raise (AttributeError
               "'NoneType' object has no attribute 'startswith'")
  | Some line =>
      if negb (startswith line "_") then ret None
      else
        match split (slice_from 1 line) with
        | [] => raise (IndexError "list index out of range")
        | data_name :: _ => next ;;; ret (Some data_name)
        end
  end.

(** The first loop of [parse_loop_content]. *)
Fixpoint data_names_loop (fuel : nat) (data_names : list string)
  : parser (list string) :=
  match fuel with
  | O => out_of_fuel
  | S fuel' =>
      data_name <~ parse_data_name ;;
      match data_name with
      | None => ret data_names
      | Some n => data_names_loop fuel' (data_names ++ [n])
      end
  end.

Definition row_mismatch : string :=
  "number of data items in row does not match number of data names".

Definition no_data_names : string := "no data names found for loop".

(** The loop condition [self.accept("\n") or self.accept(None)]. *)
Definition end_of_rows : parser bool :=
  blank <~ accept (Some nl) ;;
  if blank then ret true else accept None.

(** The second loop of [parse_loop_content]. *)
Fixpoint rows_loop (fuel : nat) (data_names : list string)
    (rows : list (list string)) : parser (list (list string)) :=
  match fuel with
  | O => out_of_fuel
  | S fuel' =>
      stop <~ end_of_rows ;;
      if stop then ret rows
      else
        c <~ curr ;;
        match c with
        | None =>
            raise (AttributeError
                     "'NoneType' object has no attribute 'split'")
        | Some line =>
            let row := split line in
            if negb (Nat.eqb (length row) (length data_names)) then
              raise_StarParseError [PyString row_mismatch]
            else
              next ;;; rows_loop fuel' data_names (rows ++ [row])
        end
  end.

(** [StarParser.parse_loop_content] *)
Definition parse_loop_content : parser Table :=
  data_names <~ while_lines_left (fun fuel => data_names_loop fuel []) ;;
  if Nat.eqb (length data_names) 0 then
    raise_StarParseError [PyString no_data_names]
  else
    rows <~ while_lines_left (fun fuel => rows_loop fuel data_names []) ;;
    ret (from_records rows data_names).

(** [StarParser.parse_data_block] *)
Definition parse_data_block : parser (option (string * Table)) :=
  let data_tag := "data_" in
  c <~ curr ;;
  match c with
  | None => ret None
  | Some line =>
      if negb (startswith line data_tag) then ret None
      else
        let block_name := strip (slice_from (String.length data_tag) line) in
        next ;;;
        (accept (Some nl) ;;;
        (expect (Some ("loop_" +:+ nl)) ;;;
        (loop_content <~ parse_loop_content ;;
         ret (Some (block_name, loop_content)))))
  end.

(** The loop [while self.accept("\n"): pass]. *)
Fixpoint skip_blank_lines (fuel : nat) : parser unit :=
  match fuel with
  | O => out_of_fuel
  | S fuel' =>
      blank <~ accept (Some nl) ;;
      if blank then skip_blank_lines fuel' else ret tt
  end.

(** The loop [while True: ...] of [parse], with the dict built so far. *)
Fixpoint data_blocks_loop (fuel : nat) (data_blocks : StarFile)
  : parser StarFile :=
  match fuel with
  | O => out_of_fuel
  | S fuel' =>
      data_block <~ parse_data_block ;;
      match data_block with
      | None => ret data_blocks
      | Some (block_name, contents) =>
          data_blocks_loop fuel' (<[block_name := contents]> data_blocks)
      end
  end.

(** [StarParser.parse] *)
Definition parse : parser StarFile :=
  while_lines_left skip_blank_lines ;;;
  while_lines_left (fun fuel => data_blocks_loop fuel ∅).

(** [StarParser(file).parse()] *)
Definition run (file : File) : outcome StarFile :=
  value_of (parse (Stream.init file)).

End StarParser.

Import StarParser.

(** A text file with the given name and content. *)
Definition text_file (fname : string) (text : string) : File :=
  mkFile fname (readlines text).

(** Joins lines given without their terminator, ending each with [\n]. *)
Definition unlines (ls : list string) : string :=
  fold_right (fun l text => l +:+ nl +:+ text) EmptyString ls.

(** ** The inputs of the scenarios *)

Definition mismatch_file : File :=
  text_file "x.star" (unlines ["data_x"; "loop_"; "_a _b"; "1 2 3"]).

Definition empty_loop_file : File :=
  text_file "x.star" (unlines ["data_x"; "loop_"]).

Definition end_to_end_file : File :=
  text_file "test.star"
    (unlines ["data_test"; "loop_"; "_id"; "_value"; "1 foo"; "2 bar";
              EmptyString]).

Definition names_then_eof_file : File :=
  text_file "x.star" (unlines ["data_x"; "loop_"; "_a"; "_b"]).

Definition empty_file : File := mkFile "empty.star" [].

(** A table whose rows all have one value per column. *)
Definition well_shaped (t : Table) : Prop :=
  Forall (fun r => length r = length (columns t)) (rows t).

Definition underscore_only_file : File := text_file "x.star" (unlines ["_"]).

Definition blank_lines_file : File := mkFile "blank.star" [nl; nl; nl].

(** Two blocks named [a]; the second one has the row [2]. *)
Definition duplicate_file : File :=
  text_file "dup.star"
    (unlines ["data_a"; "loop_"; "_x"; "1"; EmptyString;
              "data_a"; "loop_"; "_x"; "2"; EmptyString]).

(** The same lines as [end_to_end_file] under another name. *)
Definition renamed_file : File :=
  mkFile "copy.star" (file_lines end_to_end_file).

(** A line that [parse_data_name] reads a data name from. *)
Definition is_data_name_line (line : string) : bool :=
  startswith line "_" && negb (only_whitespace (slice_from 1 line)).

Definition none_has_no_startswith : exn :=
  AttributeError "'NoneType' object has no attribute 'startswith'".

(** ** Predicates on parser routines *)

(** [p] never hands back more lines than it was given. *)
Definition shrinks {A} (p : parser A) : Prop :=
  forall s a s', p s = Ok (a, s') ->
    Stream.lines_left s' <= Stream.lines_left s.

(** [p] never runs out of fuel. *)
Definition terminates {A} (p : parser A) : Prop :=
  forall s, p s <> OutOfFuel.

(** Two cursors at the same position of the same lines, whatever the
    names of their sources. *)
Definition same_lines (s1 s2 : LineStream) : Prop :=
  _iter s1 = _iter s2 /\ _curr s1 = _curr s2.

Definition agree {A} (o1 o2 : outcome (A * LineStream)) : Prop :=
  match o1, o2 with
  | Ok (a1, s1), Ok (a2, s2) => a1 = a2 /\ same_lines s1 s2
  | Raise e1, Raise e2 => e1 = e2
  | OutOfFuel, OutOfFuel => True
  | _, _ => False
  end.

(** [p] does not look at the name of the source. *)
Definition name_blind {A} (p : parser A) : Prop :=
  forall s1 s2, same_lines s1 s2 -> agree (p s1) (p s2).

(** The loop of [parse] again, recording the blocks in the order in which
    [parse_data_block] returns them instead of storing them in the dict. *)
Fixpoint data_blocks_seq (fuel : nat) : parser (list (string * Table)) :=
  match fuel with
  | O => out_of_fuel
  | S fuel' =>
      data_block <~ parse_data_block ;;
      match data_block with
      | None => ret []
      | Some b => bs <~ data_blocks_seq fuel' ;; ret (b :: bs)
      end
  end.

(** The data blocks of a file, in input order. *)
Definition blocks_of (file : File) : outcome (list (string * Table)) :=
  value_of ((while_lines_left skip_blank_lines ;;;
             while_lines_left data_blocks_seq) (Stream.init file)).

(** [data_blocks[block_name] = contents] for each block in turn. *)
Definition store_blocks (data_blocks : StarFile)
    (bs : list (string * Table)) : StarFile :=
  fold_left (fun m b => <[fst b := snd b]> m) bs data_blocks.

(** ** Cursor positions and the exceptions of the parser *)

(** The cursor of source [f] standing on the first line of [ls], which has
    index [i]; with [ls] empty, the exhausted cursor after [i] lines. *)
Definition cursor (f : string) (i : nat) (ls : list string) : LineStream :=
  match ls with
  | [] => mkLineStream f (i, []) None
  | l :: rest => mkLineStream f (S i, rest) (Some (i, l))
  end.

(** What [raise StarParseError(descr)] propagates. *)
Definition missing_descr : exn :=
  TypeError
    "StarParseError.__init__() missing 1 required positional argument: 'descr'".

(** What [split()[0]] raises on an empty list. *)
Definition index_out_of_range : exn := IndexError "list index out of range".

Definition parser_exn (e : exn) : Prop :=
  e = missing_descr \/ e = none_has_no_startswith \/ e = index_out_of_range.

(** [p] raises nothing but the three exceptions above. *)
Definition raises_only {A} (p : parser A) : Prop :=
  forall s e, p s = Raise e -> parser_exn e.

(** ** Tokens and stripped names *)

(** [s] holds no whitespace character. *)
Fixpoint no_whitespace (s : string) : bool :=
  match s with
  | EmptyString => true
  | String c s' => negb (isspace c) && no_whitespace s'
  end.

(** A token: one or more characters, none of them whitespace. *)
Definition is_token (s : string) : bool :=
  match s with
  | EmptyString => false
  | String _ _ => no_whitespace s
  end.

(** [s] is empty or starts with a character that is not whitespace. *)
Definition starts_nonspace (s : string) : bool :=
  match s with
  | EmptyString => true
  | String c _ => negb (isspace c)
  end.

(** [s] has no whitespace at either end. *)
Definition is_stripped (s : string) : bool :=
  starts_nonspace s && starts_nonspace (reverse s).

(** The items written one after the other with a single space between
    them. *)
Fixpoint join_items (items : list string) : string :=
  match items with
  | [] => EmptyString
  | [x] => x
  | x :: rest => x +:+ String (ascii_of_nat 32) (join_items rest)
  end.

(** ** The lines of a data block *)

(** The name that [parse_data_name] reads on a line that has one. *)
Definition data_name_of (line : string) : string :=
  hd EmptyString (split (slice_from 1 line)).

(** A line that the row loop takes as a row of [n] items. *)
Definition is_row_line (n : nat) (line : string) : bool :=
  negb (String.eqb line nl) && Nat.eqb (length (split line)) n.

(** The lines start with one that is not a data-name line. *)
Definition names_end_here (ls : list string) : bool :=
  match ls with
  | [] => false
  | l :: _ => negb (startswith l "_")
  end.

(** What may follow the rows of a loop: the end of input, or a blank line
    and then anything. *)
Definition ends_rows (ending : list string) : bool :=
  match ending with
  | [] => true
  | l :: _ => String.eqb l nl
  end.

(** What may stand between a tag line and the [loop_] line: nothing, or
    one blank line. *)
Definition is_gap (gap : list string) : bool :=
  match gap with
  | [] => true
  | [l] => String.eqb l nl
  | _ => false
  end.

Definition loop_line : string := "loop_" +:+ nl.

(** The lines start with one that is not a tag line, or there is none:
    here [parse_data_block] reports that no block follows. *)
Definition ignored_tail (tail : list string) : bool :=
  match tail with
  | [] => true
  | l :: _ => negb (startswith l "data_")
  end.

(** ** Writing a mapping out as lines *)

Definition tag_line (block_name : string) : string :=
  "data_" +:+ block_name +:+ nl.

Definition data_name_line (data_name : string) : string :=
  "_" +:+ data_name +:+ nl.

Definition row_line (row : list string) : string := join_items row +:+ nl.

(** A block as lines: tag line, [loop_], one line per column name, one
    line per row, one blank line. *)
Definition block_lines (b : string * Table) : list string :=
  tag_line (fst b) :: loop_line ::
  map data_name_line (columns (snd b)) ++ map row_line (rows (snd b)) ++ [nl].

Definition star_lines (bs : list (string * Table)) : list string :=
  flat_map block_lines bs.

(** A table that can be written out: at least one column, tokens as
    column names and values, rows as long as the column list, and a first
    row that does not start with an underscore. *)
Definition writable_table (t : Table) : bool :=
  negb (Nat.eqb (length (columns t)) 0)
  && forallb is_token (columns t)
  && forallb (fun r => Nat.eqb (length r) (length (columns t))
                       && forallb is_token r) (rows t)
  && names_end_here (map row_line (rows t) ++ [nl]).

Definition writable_block (b : string * Table) : bool :=
  is_stripped (fst b) && writable_table (snd b).



(** ** Data blocks as they stand in the input *)







(** * Properties *)

(** ** Strings *)

Section Strings.

Lemma flush_nil tok rest : flush tok rest = [] <-> tok = [] /\ rest = [].
Proof.
  destruct tok as [|c tok]; simpl; split.
  - intros ->. split; reflexivity.
  - intros [_ ->]. reflexivity.
  - discriminate.
  - intros [H _]. discriminate H.
Qed.

Lemma split_from_nil s : forall tok,
  split_from tok s = [] <-> tok = [] /\ only_whitespace s = true.
Proof.
  induction s as [|c s IH]; intros tok; simpl.
  - rewrite flush_nil. tauto.
  - destruct (isspace c); simpl.
    + rewrite flush_nil, IH. tauto.
    + rewrite IH. split; [intros [H _]; discriminate H | intros [_ H]; discriminate H].
Qed.

(** [s.split()] is empty exactly when [s] holds whitespace only. *)
Lemma split_nil s : split s = [] <-> only_whitespace s = true.
Proof. unfold split. rewrite split_from_nil. tauto. Qed.

End Strings.

(** ** The line cursor *)

Section Cursor.

Lemma next_lines_left s :
  Stream.lines_left (Stream.next s) <= Stream.lines_left s.
Proof.
  destruct s as [f [i [|l ls]] [c|]]; cbn; lia.
Qed.

Lemma next_lines_left_lt s :
  Stream.curr s <> None ->
  Stream.lines_left (Stream.next s) < Stream.lines_left s.
Proof.
  destruct s as [f [i [|l ls]] [[j c]|]]; cbn; intros H; try lia;
    contradiction H; reflexivity.
Qed.

(** [curr] is [None] exactly in the exhausted state. *)
Lemma curr_None s : Stream.curr s = None <-> _curr s = None.
Proof.
  unfold Stream.curr. destruct (_curr s) as [[i l]|]; split; congruence.
Qed.

(** On a line, [row] is the line's index plus one. *)
Lemma row_on_line s i line :
  _curr s = Some (i, line) -> Stream.row s = Ok (S i).
Proof. unfold Stream.row. intros ->. f_equal. lia. Qed.

(** Once the source is drained, [next] changes nothing. *)
Lemma next_exhausted s :
  snd (_iter s) = [] -> _curr s = None -> Stream.next s = s.
Proof.
  destruct s as [f [i ls] c]; simpl. intros -> ->. reflexivity.
Qed.

(** [row] returns a number exactly when the cursor is on a line. *)
Lemma row_defined_iff s :
  (exists n, Stream.row s = Ok n) <-> Stream.curr s <> None.
Proof.
  unfold Stream.row, Stream.curr.
  destruct (_curr s) as [[i l]|]; split.
  - discriminate.
  - eauto.
  - intros [n H]. discriminate H.
  - intros H. contradiction H. reflexivity.
Qed.

(** Built from a cursor on a line and a description, the exception holds
    the source name, the 1-based row and the description. *)
Lemma StarParseError_init_on_line s i line descr :
  _curr s = Some (i, line) ->
  StarParseError_init [PyLineStream s; PyString descr] =
  Ok (StarParseError (fname s) (S i) (PyString descr)).
Proof.
  intros H. unfold StarParseError_init.
  rewrite (row_on_line s i line H). reflexivity.
Qed.

(** Built from a description alone, as every [raise] of the parser does,
    the constructor call fails before an exception object exists. *)
Lemma StarParseError_init_without_stream descr :
  exists msg, StarParseError_init [PyString descr] = Raise (TypeError msg).
Proof. eexists. reflexivity. Qed.

(** After [__init__] the cursor is exhausted only when the source is. *)
Lemma init_exhausted file :
  _curr (Stream.init file) = None -> snd (_iter (Stream.init file)) = [].
Proof.
  destruct file as [n [|l ls]]; cbn; [reflexivity | discriminate].
Qed.

End Cursor.

(** ** Running the monad *)

Section Monad.

Context {A B : Type}.

Lemma bind_Ok (p : parser A) (k : A -> parser B) s b s' :
  bind p k s = Ok (b, s') ->
  exists a s1, p s = Ok (a, s1) /\ k a s1 = Ok (b, s').
Proof.
  unfold bind. destruct (p s) as [[a s1]| |]; try discriminate. eauto.
Qed.

Lemma bind_run (p : parser A) (k : A -> parser B) s a s1 :
  p s = Ok (a, s1) -> bind p k s = k a s1.
Proof. unfold bind. intros ->. reflexivity. Qed.

End Monad.

Lemma accept_run item s :
  accept item s =
  if decide (Stream.curr s = item) then Ok (true, Stream.next s)
  else Ok (false, s).
Proof.
  unfold accept, bind, curr, next, ret.
  destruct (decide (Stream.curr s = item)); reflexivity.
Qed.

(** A [raise StarParseError(...)] statement always raises, whatever its
    arguments. *)
Lemma raise_StarParseError_raises {A} args s :
  exists e, @raise_StarParseError A args s = Raise e.
Proof.
  unfold raise_StarParseError, StarParseError_init, Stream.row.
  destruct args as [|[d|st] [|b args]]; eauto.
  destruct (_curr st) as [[i l]|]; eauto.
Qed.

(** ** Fuel: every loop consumes a line per iteration *)

Section Fuel.

Context {A B : Type}.

Lemma shrinks_ret (a : A) : shrinks (ret a).
Proof. intros s a' s' H. inversion H. subst. reflexivity. Qed.

Lemma shrinks_raise e : shrinks (@raise A e).
Proof. intros s a s' H. discriminate H. Qed.

Lemma shrinks_raise_StarParseError args :
  shrinks (@raise_StarParseError A args).
Proof.
  intros s a s' H.
  destruct (raise_StarParseError_raises (A:=A) args s) as [e He].
  congruence.
Qed.

Lemma shrinks_bind (p : parser A) (k : A -> parser B) :
  shrinks p -> (forall a, shrinks (k a)) -> shrinks (bind p k).
Proof.
  intros Hp Hk s b s' H.
  apply bind_Ok in H as (a & s1 & H1 & H2).
  apply Hp in H1. apply Hk in H2. lia.
Qed.

Lemma terminates_ret (a : A) : terminates (ret a).
Proof. intros s H. discriminate H. Qed.

Lemma terminates_raise e : terminates (@raise A e).
Proof. intros s H. discriminate H. Qed.

Lemma terminates_raise_StarParseError args :
  terminates (@raise_StarParseError A args).
Proof.
  intros s H.
  destruct (raise_StarParseError_raises (A:=A) args s) as [e He].
  congruence.
Qed.

Lemma terminates_bind (p : parser A) (k : A -> parser B) :
  terminates p -> (forall a, terminates (k a)) -> terminates (bind p k).
Proof.
  intros Hp Hk s. unfold bind.
  destruct (p s) as [[a s1]| |] eqn:E.
  - apply Hk.
  - discriminate.
  - contradiction (Hp s).
Qed.

Lemma shrinks_while (loop : nat -> parser A) :
  (forall fuel, shrinks (loop fuel)) -> shrinks (while_lines_left loop).
Proof. intros H s a s' E. apply (H _ _ _ _ E). Qed.

Lemma terminates_while (loop : nat -> parser A) :
  (forall fuel s, Stream.lines_left s < fuel -> loop fuel s <> OutOfFuel) ->
  terminates (while_lines_left loop).
Proof. intros H s. apply H. lia. Qed.

End Fuel.

Lemma shrinks_curr : shrinks curr.
Proof. intros s a s' H. inversion H. subst. reflexivity. Qed.

Lemma shrinks_next : shrinks next.
Proof. intros s a s' H. inversion H. subst. apply next_lines_left. Qed.

Lemma terminates_curr : terminates curr.
Proof. intros s H. discriminate H. Qed.

Lemma terminates_next : terminates next.
Proof. intros s H. discriminate H. Qed.

Create HintDb fuel.

#[local] Hint Resolve shrinks_ret shrinks_raise shrinks_raise_StarParseError
  shrinks_curr shrinks_next terminates_ret terminates_raise
  terminates_raise_StarParseError terminates_curr terminates_next : fuel.

(** Splits a routine along its binds and case distinctions. *)
Ltac routine :=
  repeat first
    [ solve [auto with fuel]
    | apply shrinks_bind; [| intros ?]
    | apply terminates_bind; [| intros ?]
    | match goal with
      | |- shrinks (if ?b then _ else _) => destruct b
      | |- terminates (if ?b then _ else _) => destruct b
      | |- shrinks (match ?x with _ => _ end) => destruct x
      | |- terminates (match ?x with _ => _ end) => destruct x
      end ].

Lemma shrinks_accept item : shrinks (accept item).
Proof. unfold accept. routine. Qed.

Lemma terminates_accept item : terminates (accept item).
Proof. unfold accept. routine. Qed.

#[local] Hint Resolve shrinks_accept terminates_accept : fuel.

Lemma shrinks_expect item : shrinks (expect item).
Proof. unfold expect. routine. Qed.

Lemma terminates_expect item : terminates (expect item).
Proof. unfold expect. routine. Qed.

Lemma shrinks_parse_data_name : shrinks parse_data_name.
Proof. unfold parse_data_name. routine. Qed.

Lemma terminates_parse_data_name : terminates parse_data_name.
Proof. unfold parse_data_name. routine. Qed.

Lemma shrinks_end_of_rows : shrinks end_of_rows.
Proof. unfold end_of_rows. routine. Qed.

Lemma terminates_end_of_rows : terminates end_of_rows.
Proof. unfold end_of_rows. routine. Qed.

#[local] Hint Resolve shrinks_expect terminates_expect
  shrinks_parse_data_name terminates_parse_data_name
  shrinks_end_of_rows terminates_end_of_rows : fuel.

(** What a successful step of each loop tells about the cursor. *)

Lemma accept_true item s s' :
  accept item s = Ok (true, s') -> Stream.curr s = item /\ s' = Stream.next s.
Proof.
  rewrite accept_run. destruct (decide (Stream.curr s = item)); intros H;
    inversion H; subst; auto.
Qed.

Lemma accept_false item s s' :
  accept item s = Ok (false, s') -> Stream.curr s <> item /\ s' = s.
Proof.
  rewrite accept_run. destruct (decide (Stream.curr s = item)); intros H;
    inversion H; subst; auto.
Qed.

Lemma parse_data_name_Some s n s' :
  parse_data_name s = Ok (Some n, s') ->
  exists line, Stream.curr s = Some line /\ startswith line "_" = true /\
               hd_error (split (slice_from 1 line)) = Some n /\
               s' = Stream.next s.
Proof.
  unfold parse_data_name, bind, curr, next, ret, raise.
  destruct (Stream.curr s) as [line|]; [|discriminate].
  destruct (startswith line "_") eqn:Hp; cbn [negb]; [|discriminate].
  destruct (split (slice_from 1 line)) as [|d ds] eqn:Hs; cbv beta;
    [discriminate|].
  intros H. inversion H. subst. exists line. rewrite Hs. auto.
Qed.

Lemma parse_data_name_None s s' :
  parse_data_name s = Ok (None, s') ->
  exists line, Stream.curr s = Some line /\ startswith line "_" = false /\
               s' = s.
Proof.
  unfold parse_data_name, bind, curr, next, ret, raise.
  destruct (Stream.curr s) as [line|]; [|discriminate].
  destruct (startswith line "_") eqn:Hp; cbn [negb].
  - destruct (split (slice_from 1 line)); cbv beta; discriminate.
  - intros H. inversion H. subst. eauto.
Qed.

Lemma end_of_rows_false s s' :
  end_of_rows s = Ok (false, s') -> s' = s /\ Stream.curr s <> None.
Proof.
  unfold end_of_rows. intros H.
  apply bind_Ok in H as ([|] & s1 & H1 & H2); [discriminate H2|].
  apply accept_false in H1 as [_ ->].
  apply accept_false in H2 as [H ->]. auto.
Qed.

Lemma shrinks_data_names_loop fuel :
  forall data_names, shrinks (data_names_loop fuel data_names).
Proof.
  induction fuel as [|fuel IH]; intros data_names; simpl.
  - intros s a s' H. discriminate H.
  - routine; apply IH.
Qed.

Lemma data_names_loop_fuel fuel : forall data_names s,
  Stream.lines_left s < fuel ->
  data_names_loop fuel data_names s <> OutOfFuel.
Proof.
  induction fuel as [|fuel IH]; intros data_names s Hlt; [lia|].
  simpl. unfold bind.
  destruct (parse_data_name s) as [[[n|] s1]| |] eqn:E; try discriminate.
  - apply parse_data_name_Some in E as (line & Hc & _ & _ & ->).
    apply IH.
    assert (Stream.lines_left (Stream.next s) < Stream.lines_left s)
      by (apply next_lines_left_lt; congruence).
    lia.
  - contradiction (terminates_parse_data_name s).
Qed.

Lemma shrinks_rows_loop fuel :
  forall data_names rows, shrinks (rows_loop fuel data_names rows).
Proof.
  induction fuel as [|fuel IH]; intros data_names rows; simpl.
  - intros s a s' H. discriminate H.
  - routine; apply IH.
Qed.

Lemma rows_loop_fuel fuel : forall data_names rows s,
  Stream.lines_left s < fuel ->
  rows_loop fuel data_names rows s <> OutOfFuel.
Proof.
  induction fuel as [|fuel IH]; intros data_names rows s Hlt; [lia|].
  simpl. unfold bind at 1.
  destruct (end_of_rows s) as [[[|] s1]| |] eqn:E; try discriminate.
  - apply end_of_rows_false in E as [-> Hc].
    unfold bind, curr.
    destruct (Stream.curr s) as [line|] eqn:Hline; [|discriminate].
    destruct (negb _).
    + apply terminates_raise_StarParseError.
    + simpl. apply IH.
      assert (Stream.lines_left (Stream.next s) < Stream.lines_left s)
        by (apply next_lines_left_lt; congruence).
      lia.
  - contradiction (terminates_end_of_rows s).
Qed.

Lemma shrinks_parse_loop_content : shrinks parse_loop_content.
Proof.
  unfold parse_loop_content. routine.
  - apply shrinks_while. intros fuel. apply shrinks_data_names_loop.
  - apply shrinks_while. intros fuel. apply shrinks_rows_loop.
Qed.

Lemma terminates_parse_loop_content : terminates parse_loop_content.
Proof.
  unfold parse_loop_content. routine.
  - apply terminates_while. intros fuel s. apply data_names_loop_fuel.
  - apply terminates_while. intros fuel s. apply rows_loop_fuel.
Qed.

#[local] Hint Resolve shrinks_parse_loop_content
  terminates_parse_loop_content : fuel.

Lemma shrinks_parse_data_block : shrinks parse_data_block.
Proof. unfold parse_data_block. routine. Qed.

Lemma terminates_parse_data_block : terminates parse_data_block.
Proof. unfold parse_data_block. routine. Qed.

(** A recognised block has consumed at least its tag line. *)
Lemma parse_data_block_Some s b s' :
  parse_data_block s = Ok (Some b, s') ->
  Stream.lines_left s' < Stream.lines_left s.
Proof.
  unfold parse_data_block. intros H.
  apply bind_Ok in H as (c & s1 & Hc & H).
  inversion Hc. subst. clear Hc.
  destruct (Stream.curr s1) as [line|] eqn:Hc; [|discriminate H].
  destruct (negb _); [discriminate H|].
  apply bind_Ok in H as (u & s2 & Hn & H).
  inversion Hn. subst. clear Hn.
  assert (Hrest : Stream.lines_left s' <= Stream.lines_left (Stream.next s1)).
  { cbv beta in H. revert H.
    match goal with
    | |- ?p _ = _ -> _ => assert (Hs : shrinks p) by routine
    end.
    intros H. apply (Hs _ _ _ H). }
  assert (Stream.lines_left (Stream.next s1) < Stream.lines_left s1)
    by (apply next_lines_left_lt; congruence).
  lia.
Qed.

Lemma skip_blank_lines_fuel fuel : forall s,
  Stream.lines_left s < fuel -> skip_blank_lines fuel s <> OutOfFuel.
Proof.
  induction fuel as [|fuel IH]; intros s Hlt; [lia|].
  simpl. unfold bind. rewrite accept_run.
  destruct (decide (Stream.curr s = Some nl)) as [Hc|Hc]; [|discriminate].
  apply IH.
  assert (Stream.lines_left (Stream.next s) < Stream.lines_left s)
    by (apply next_lines_left_lt; congruence).
  lia.
Qed.

Lemma data_blocks_loop_fuel fuel : forall data_blocks s,
  Stream.lines_left s < fuel ->
  data_blocks_loop fuel data_blocks s <> OutOfFuel.
Proof.
  induction fuel as [|fuel IH]; intros data_blocks s Hlt; [lia|].
  simpl. unfold bind.
  destruct (parse_data_block s) as [[[[n t]|] s1]| |] eqn:E;
    try discriminate.
  - apply IH. apply parse_data_block_Some in E. lia.
  - contradiction (terminates_parse_data_block s).
Qed.

(** The fuel handed to the loops is never used up: [parse] either returns
    a mapping or raises. *)
Theorem parse_total file :
  (exists data_blocks, run file = Ok data_blocks) \/
  (exists e, run file = Raise e).
Proof.
  assert (H : terminates parse).
  { unfold parse. routine.
    - apply terminates_while. intros fuel s. apply skip_blank_lines_fuel.
    - apply terminates_while. intros fuel s. apply data_blocks_loop_fuel. }
  unfold run. specialize (H (Stream.init file)).
  destruct (parse (Stream.init file)) as [[m s]| |]; simpl; eauto.
  contradiction H. reflexivity.
Qed.

(** ** Row shape *)

Section Shape.

Lemma rows_loop_shape fuel : forall data_names rows s rows' s',
  Forall (fun r => length r = length data_names) rows ->
  rows_loop fuel data_names rows s = Ok (rows', s') ->
  Forall (fun r => length r = length data_names) rows'.
Proof.
  induction fuel as [|fuel IH]; intros data_names rows s rows' s' Hrows H;
    [discriminate H|].
  simpl in H.
  apply bind_Ok in H as ([|] & s1 & _ & H).
  - inversion H. subst. exact Hrows.
  - apply bind_Ok in H as ([line|] & s2 & _ & H); [|discriminate H].
    destruct (Nat.eqb (length (split line)) (length data_names)) eqn:Hlen;
      cbn [negb] in H.
    + apply bind_Ok in H as (u & s3 & _ & H).
      apply IH in H; [exact H|].
      apply Forall_app. split; [exact Hrows|].
      constructor; [|constructor].
      apply Nat.eqb_eq. exact Hlen.
    + destruct (raise_StarParseError_raises
                  (A:=list (list string)) [PyString row_mismatch] s2)
        as [e He].
      congruence.
Qed.

Lemma parse_loop_content_shape s t s' :
  parse_loop_content s = Ok (t, s') -> well_shaped t.
Proof.
  unfold parse_loop_content. intros H.
  apply bind_Ok in H as (data_names & s1 & _ & H).
  destruct (Nat.eqb (length data_names) 0).
  - destruct (raise_StarParseError_raises
                (A:=Table) [PyString no_data_names] s1) as [e He].
    congruence.
  - apply bind_Ok in H as (rows & s2 & Hrows & H).
    inversion H. subst. unfold well_shaped, from_records. simpl.
    unfold while_lines_left in Hrows.
    eapply rows_loop_shape; [|exact Hrows]. constructor.
Qed.

Lemma parse_data_block_shape s block_name t s' :
  parse_data_block s = Ok (Some (block_name, t), s') -> well_shaped t.
Proof.
  unfold parse_data_block. intros H.
  apply bind_Ok in H as ([line|] & s1 & _ & H); [|discriminate H].
  destruct (negb _); [discriminate H|].
  apply bind_Ok in H as (u1 & s2 & _ & H).
  apply bind_Ok in H as (u2 & s3 & _ & H).
  apply bind_Ok in H as (u3 & s4 & _ & H).
  apply bind_Ok in H as (loop_content & s5 & Hloop & H).
  inversion H. subst.
  eapply parse_loop_content_shape. exact Hloop.
Qed.

Lemma data_blocks_loop_shape fuel : forall (data_blocks : StarFile) s m s',
  map_Forall (fun _ t => well_shaped t) data_blocks ->
  data_blocks_loop fuel data_blocks s = Ok (m, s') ->
  map_Forall (fun _ t => well_shaped t) m.
Proof.
  induction fuel as [|fuel IH]; intros data_blocks s m s' Hm H;
    [discriminate H|].
  simpl in H.
  apply bind_Ok in H as ([[block_name t]|] & s1 & Hblock & H).
  - apply IH in H; [exact H|].
    apply map_Forall_insert_2; [|exact Hm].
    eapply parse_data_block_shape. exact Hblock.
  - inversion H. subst. exact Hm.
Qed.

End Shape.

(** ** The dict built by [parse] *)

Section Blocks.

Implicit Types (m : StarFile) (bs : list (string * Table)).




(** The dict loop stores exactly the recorded blocks, in order. *)
Lemma data_blocks_loop_seq fuel : forall m s,
  data_blocks_loop fuel m s =
  match data_blocks_seq fuel s with
  | Ok (bs, s') => Ok (store_blocks m bs, s')
  | Raise e => Raise e
  | OutOfFuel => OutOfFuel
  end.
Proof.
  induction fuel as [|fuel IH]; intros m s; [reflexivity|].
  simpl. unfold bind at 1 2.
  destruct (parse_data_block s) as [[[[block_name t]|] s1]| |];
    try reflexivity.
  rewrite IH. unfold bind.
  destruct (data_blocks_seq fuel s1) as [[bs s2]| |]; reflexivity.
Qed.

Lemma run_blocks_of file :
  run file =
  match blocks_of file with
  | Ok bs => Ok (store_blocks ∅ bs)
  | Raise e => Raise e
  | OutOfFuel => OutOfFuel
  end.
Proof.
  unfold run, blocks_of, parse, bind, while_lines_left.
  destruct (skip_blank_lines _ _) as [[u s]| |]; try reflexivity.
  rewrite data_blocks_loop_seq.
  destruct (data_blocks_seq _ s) as [[bs s']| |]; reflexivity.
Qed.

End Blocks.

(** ** Independence from the name of the source *)

Section NameBlind.

Context {A B : Type}.

Lemma same_lines_next s1 s2 :
  same_lines s1 s2 -> same_lines (Stream.next s1) (Stream.next s2).
Proof.
  intros [Hi Hc]. unfold Stream.next. rewrite Hi.
  destruct (Stream.iter_next (_iter s2)) as [[item it]|]; split; auto.
Qed.

Lemma same_lines_curr s1 s2 :
  same_lines s1 s2 -> Stream.curr s1 = Stream.curr s2.
Proof. intros [_ Hc]. unfold Stream.curr. rewrite Hc. reflexivity. Qed.

Lemma same_lines_left s1 s2 :
  same_lines s1 s2 -> Stream.lines_left s1 = Stream.lines_left s2.
Proof.
  intros [Hi Hc]. unfold Stream.lines_left. rewrite Hi, Hc. reflexivity.
Qed.

Lemma name_blind_ret (a : A) : name_blind (ret a).
Proof. intros s1 s2 H. simpl. auto. Qed.

Lemma name_blind_raise e : name_blind (@raise A e).
Proof. intros s1 s2 H. reflexivity. Qed.

Lemma name_blind_out_of_fuel : name_blind (@out_of_fuel A).
Proof. intros s1 s2 H. exact I. Qed.

Lemma name_blind_raise_StarParseError args :
  name_blind (@raise_StarParseError A args).
Proof.
  intros s1 s2 H. unfold raise_StarParseError.
  destruct (StarParseError_init args); simpl; auto.
Qed.

Lemma name_blind_bind (p : parser A) (k : A -> parser B) :
  name_blind p -> (forall a, name_blind (k a)) -> name_blind (bind p k).
Proof.
  intros Hp Hk s1 s2 H. specialize (Hp s1 s2 H). unfold bind.
  destruct (p s1) as [[a1 t1]| |], (p s2) as [[a2 t2]| |]; simpl in Hp;
    try contradiction; try discriminate.
  - destruct Hp as [-> Ht]. apply Hk. exact Ht.
  - simpl. exact Hp.
  - exact I.
Qed.

Lemma name_blind_while (loop : nat -> parser A) :
  (forall fuel, name_blind (loop fuel)) -> name_blind (while_lines_left loop).
Proof.
  intros Hl s1 s2 H. unfold while_lines_left.
  rewrite (same_lines_left s1 s2 H). apply Hl. exact H.
Qed.

End NameBlind.

Lemma name_blind_curr : name_blind curr.
Proof.
  intros s1 s2 H. unfold curr. simpl. split; [|exact H].
  apply same_lines_curr. exact H.
Qed.

Lemma name_blind_next : name_blind next.
Proof.
  intros s1 s2 H. unfold next. simpl. split; [reflexivity|].
  apply same_lines_next. exact H.
Qed.

Create HintDb blind.

#[local] Hint Resolve name_blind_ret name_blind_raise name_blind_out_of_fuel
  name_blind_raise_StarParseError name_blind_curr name_blind_next : blind.

Ltac blind_routine :=
  repeat first
    [ solve [auto with blind]
    | apply name_blind_bind; [| intros ?]
    | apply name_blind_while; intros ?
    | match goal with
      | |- name_blind (if ?b then _ else _) => destruct b
      | |- name_blind (match ?x with _ => _ end) => destruct x
      end ].

Lemma name_blind_accept item : name_blind (accept item).
Proof. unfold accept. blind_routine. Qed.

#[local] Hint Resolve name_blind_accept : blind.

Lemma name_blind_expect item : name_blind (expect item).
Proof. unfold expect. blind_routine. Qed.

Lemma name_blind_parse_data_name : name_blind parse_data_name.
Proof. unfold parse_data_name. blind_routine. Qed.

Lemma name_blind_end_of_rows : name_blind end_of_rows.
Proof. unfold end_of_rows. blind_routine. Qed.

#[local] Hint Resolve name_blind_expect name_blind_parse_data_name
  name_blind_end_of_rows : blind.

Lemma name_blind_data_names_loop fuel :
  forall data_names, name_blind (data_names_loop fuel data_names).
Proof.
  induction fuel as [|fuel IH]; intros data_names; simpl; blind_routine.
Qed.

Lemma name_blind_rows_loop fuel :
  forall data_names rows, name_blind (rows_loop fuel data_names rows).
Proof.
  induction fuel as [|fuel IH]; intros data_names rows; simpl; blind_routine.
Qed.

#[local] Hint Resolve name_blind_data_names_loop name_blind_rows_loop : blind.

Lemma name_blind_parse_loop_content : name_blind parse_loop_content.
Proof. unfold parse_loop_content. blind_routine. Qed.

#[local] Hint Resolve name_blind_parse_loop_content : blind.

Lemma name_blind_parse_data_block : name_blind parse_data_block.
Proof. unfold parse_data_block. blind_routine. Qed.

#[local] Hint Resolve name_blind_parse_data_block : blind.

Lemma name_blind_skip_blank_lines fuel : name_blind (skip_blank_lines fuel).
Proof. induction fuel as [|fuel IH]; simpl; blind_routine. Qed.

Lemma name_blind_data_blocks_loop fuel :
  forall data_blocks, name_blind (data_blocks_loop fuel data_blocks).
Proof.
  induction fuel as [|fuel IH]; intros data_blocks; simpl; blind_routine.
Qed.

#[local] Hint Resolve name_blind_skip_blank_lines
  name_blind_data_blocks_loop : blind.

Lemma name_blind_parse : name_blind parse.
Proof. unfold parse. blind_routine. Qed.

Lemma same_lines_init f1 f2 :
  file_lines f1 = file_lines f2 ->
  same_lines (Stream.init f1) (Stream.init f2).
Proof.
  intros H. apply same_lines_next. split; simpl; [rewrite H|]; reflexivity.
Qed.

(** ** Blank input *)

Lemma skip_blank_lines_blank ls : forall fuel f i j,
  Forall (fun l => l = nl) ls ->
  length ls + 1 < fuel ->
  exists i',
    skip_blank_lines fuel (mkLineStream f (i, ls) (Some (j, nl))) =
    Ok (tt, mkLineStream f (i', []) None).
Proof.
  induction ls as [|l ls IH]; intros fuel f i j Hall Hfuel.
  - destruct fuel as [|[|fuel]]; try (simpl in Hfuel; lia).
    exists i. reflexivity.
  - destruct fuel as [|fuel]; [lia|].
    apply Forall_cons in Hall as [-> Hall].
    destruct (IH fuel f (S i) i Hall) as [i' Hi']; [simpl in Hfuel; lia|].
    exists i'. rewrite <- Hi'. reflexivity.
Qed.

Lemma data_blocks_loop_exhausted fuel f it (data_blocks : StarFile) :
  data_blocks_loop (S fuel) data_blocks (mkLineStream f it None) =
  Ok (data_blocks, mkLineStream f it None).
Proof. reflexivity. Qed.

(** ** Data names up to the end of input *)

Lemma data_names_loop_stops_on_line fuel : forall data_names s names s',
  data_names_loop fuel data_names s = Ok (names, s') ->
  exists line, Stream.curr s' = Some line /\ startswith line "_" = false.
Proof.
  induction fuel as [|fuel IH]; intros data_names s names s' H;
    [discriminate H|].
  simpl in H. apply bind_Ok in H as ([n|] & s1 & Hname & H).
  - eapply IH. exact H.
  - apply parse_data_name_None in Hname as (line & Hc & Hp & ->).
    inversion H. subst. eauto.
Qed.

Lemma parse_data_name_on_name_line f it j line :
  is_data_name_line line = true ->
  exists data_name,
    parse_data_name (mkLineStream f it (Some (j, line))) =
    Ok (Some data_name, Stream.next (mkLineStream f it (Some (j, line)))).
Proof.
  unfold is_data_name_line. intros H.
  apply andb_prop in H as [Hp Hw]. apply negb_true_iff in Hw.
  unfold parse_data_name, bind, curr, Stream.curr. cbn [_curr].
  rewrite Hp. cbn [negb].
  destruct (split (slice_from 1 line)) as [|d ds] eqn:Hs.
  - apply split_nil in Hs. congruence.
  - exists d. reflexivity.
Qed.

Lemma data_names_loop_eof ls : forall fuel data_names f i j line,
  forallb is_data_name_line (line :: ls) = true ->
  length ls + 1 < fuel ->
  data_names_loop fuel data_names (mkLineStream f (i, ls) (Some (j, line))) =
  Raise none_has_no_startswith.
Proof.
  induction ls as [|l ls IH]; intros fuel data_names f i j line Hall Hfuel;
    simpl in Hall; apply andb_prop in Hall as [Hline Hall];
    (destruct fuel as [|fuel]; [lia|]); simpl;
    destruct (parse_data_name_on_name_line f (i, []) j line Hline) as [d Hd];
    unfold bind at 1.
  - rewrite Hd. destruct fuel as [|fuel]; [simpl in Hfuel; lia|].
    reflexivity.
  - destruct (parse_data_name_on_name_line f (i, l :: ls) j line Hline)
      as [d' Hd'].
    rewrite Hd'. cbn [Stream.next Stream.iter_next _iter fname].
    apply IH; [exact Hall | simpl in Hfuel; lia].
Qed.

(** When every line from the cursor to the end of input declares a data
    name, [parse_loop_content] stops with the failed attribute access of
    [parse_data_name]: no table is produced. *)
Lemma parse_loop_content_names_then_eof f i j line ls :
  forallb is_data_name_line (line :: ls) = true ->
  parse_loop_content (mkLineStream f (i, ls) (Some (j, line))) =
  Raise none_has_no_startswith.
Proof.
  intros Hall. unfold parse_loop_content, bind, while_lines_left.
  rewrite data_names_loop_eof; [reflexivity | exact Hall | cbn; lia].
Qed.

(** * The claims *)

(** ** C1: a row with the wrong number of items *)

Lemma run_mismatch_file :
  run mismatch_file =
  Raise (TypeError
    "StarParseError.__init__() missing 1 required positional argument: 'descr'").
Proof. vm_compute. reflexivity. Qed.

(** C1, as stated, does not hold: on the input
    [data_x / loop_ / _a _b / 1 2 3] the exception that leaves [parse] is
    not a [StarParseError] for row 3, under any source name and with any
    description. *)
Lemma C1_no_parse_error_for_row_3 :
  ~ (exists filename description,
       run mismatch_file = Raise (StarParseError filename 3 description)).
Proof.
  intros (filename & description & H).
  rewrite run_mismatch_file in H. discriminate H.
Qed.

(** C1, amended: on the input [data_x / loop_ / _a _b / 1 2 3] the line
    [_a _b] declares the single data name [a]; the cursor then stands on
    the data row [1 2 3], whose 1-based row number is 4; that row is
    neither blank nor the end of input and splits into 3 items against 1
    data name, which is the condition under which [parse_loop_content]
    raises with the description "number of data items in row does not
    match number of data names"; and [parse] returns no mapping. *)
Theorem C1_mismatch_detected_on_row_4 :
  let s0 := Stream.init mismatch_file in
  let names_at := Stream.next (Stream.next s0) in
  let row_at := Stream.next names_at in
  (next ;;; (accept (Some nl) ;;; expect (Some ("loop_" +:+ nl)))) s0
    = Ok (tt, names_at) /\
  while_lines_left (fun fuel => data_names_loop fuel []) names_at
    = Ok (["a"], row_at) /\
  Stream.curr row_at = Some ("1 2 3" +:+ nl) /\
  Stream.row row_at = Ok 4 /\
  end_of_rows row_at = Ok (false, row_at) /\
  split ("1 2 3" +:+ nl) = ["1"; "2"; "3"] /\
  while_lines_left (fun fuel => rows_loop fuel ["a"] []) row_at
    = raise_StarParseError [PyString row_mismatch] row_at /\
  exists e, run mismatch_file = Raise e.
Proof.
  repeat split; try (vm_compute; reflexivity).
  eexists. apply run_mismatch_file.
Qed.

(** ** C2: a loop with no data names at the end of input *)

(** C2 fails on the code: on the input [data_x / loop_] followed by the
    end of input, [parse] does not reach the empty-loop check; it stops in
    [parse_data_name], which calls [startswith] on the [None] current
    line. *)
Theorem C2_empty_loop_at_end_of_input :
  run empty_loop_file = Raise none_has_no_startswith.
Proof. vm_compute. reflexivity. Qed.

(** ** C3: the end-to-end example *)

(** C3: the input with the lines [data_test], [loop_], [_id], [_value],
    [1 foo], [2 bar] and a trailing blank line parses to the mapping with
    the single key [test], bound to the table with columns [id; value] and
    rows [1 foo] and [2 bar], in that order. *)
Theorem C3_end_to_end :
  file_lines end_to_end_file =
    ["data_test" +:+ nl; "loop_" +:+ nl; "_id" +:+ nl; "_value" +:+ nl;
     "1 foo" +:+ nl; "2 bar" +:+ nl; nl] /\
  run end_to_end_file =
    Ok {[ "test" := mkTable ["id"; "value"] [["1"; "foo"]; ["2"; "bar"]] ]}.
Proof. split; vm_compute; reflexivity. Qed.

(** ** C4: end of input right after the data names *)

(** C4 fails on the code: on the input [data_x / loop_ / _a / _b], which
    ends right after the data names, [parse] returns no table; after the
    last name [parse_data_name] is called once more and calls
    [startswith] on the [None] current line. *)
Theorem C4_names_then_end_of_input :
  run names_then_eof_file = Raise none_has_no_startswith.
Proof. vm_compute. reflexivity. Qed.

(** ** C5: the line cursor at the end of input *)

(** In the exhausted state [row] raises, for every cursor. *)
Lemma row_exhausted s :
  Stream.curr s = None ->
  Stream.row s = Raise (TypeError "'NoneType' object is not subscriptable").
Proof.
  intros H. apply curr_None in H. unfold Stream.row. rewrite H. reflexivity.
Qed.

(** C5 fails on the code for [row]: on an empty source the cursor is
    exhausted from the start, [curr] is [None] and [next] leaves the cursor
    as it is, but [row] raises a [TypeError] instead of returning a line
    number. *)
Theorem C5_row_at_end_of_input :
  let s := Stream.init empty_file in
  Stream.curr s = None /\
  Stream.next s = s /\
  Stream.row s = Raise (TypeError "'NoneType' object is not subscriptable").
Proof. repeat split. Qed.

(** ** C6: every row has one value per column *)

(** C6: whenever [parse] succeeds, every table of the returned mapping has
    rows whose length is the number of its column names. *)
Theorem C6_rows_match_columns file (data_blocks : StarFile) block_name t :
  run file = Ok data_blocks ->
  data_blocks !! block_name = Some t ->
  Forall (fun r => length r = length (columns t)) (rows t).
Proof.
  unfold run, parse, while_lines_left. intros H Hlookup.
  destruct (bind _ _ (Stream.init file)) as [[m s']| |] eqn:E;
    try discriminate H.
  simpl in H. inversion H. subst m. clear H.
  apply bind_Ok in E as (u & s1 & _ & E).
  apply data_blocks_loop_shape in E.
  - exact (E block_name t Hlookup).
  - apply map_Forall_empty.
Qed.

Lemma C6_rows_match_columns_witness :
  Forall (fun r => length r = 2) [["1"; "foo"]; ["2"; "bar"]].
Proof.
  apply (C6_rows_match_columns end_to_end_file
           {[ "test" := mkTable ["id"; "value"] [["1"; "foo"]; ["2"; "bar"]] ]}
           "test"
           (mkTable ["id"; "value"] [["1"; "foo"]; ["2"; "bar"]]));
    vm_compute; reflexivity.
Defined.

(** ** C8: blank input *)

(** C8: on an input whose lines are all blank, the empty input included,
    [parse] returns the empty mapping. *)
Theorem C8_blank_input_is_empty file :
  Forall (fun l => l = nl) (file_lines file) ->
  run file = Ok ∅.
Proof.
  destruct file as [f [|l ls]]; intros Hall; [reflexivity|].
  simpl in Hall. apply Forall_cons in Hall as [-> Hall].
  unfold run, parse, while_lines_left. unfold bind at 1.
  change (Stream.init (mkFile f (nl :: ls)))
    with (mkLineStream f (1, ls) (Some (0, nl))).
  destruct (skip_blank_lines_blank ls
              (S (Stream.lines_left (mkLineStream f (1, ls) (Some (0, nl)))))
              f 1 0 Hall) as [i' Hskip]; [cbn; lia|].
  rewrite Hskip. reflexivity.
Qed.

Lemma C8_blank_input_is_empty_witness : run blank_lines_file = Ok ∅.
Proof.
  apply (C8_blank_input_is_empty blank_lines_file).
  repeat constructor.
Defined.

(** ** C9: parsing the same lines twice *)

(** C9: two sources with the same lines give the same result, a mapping
    with the same blocks or the same exception, also when the sources have
    different names. *)
Theorem C9_same_lines_same_result f1 f2 :
  file_lines f1 = file_lines f2 -> run f1 = run f2.
Proof.
  intros H. unfold run.
  pose proof (name_blind_parse _ _ (same_lines_init f1 f2 H)) as Hagree.
  destruct (parse (Stream.init f1)) as [[m1 s1]| |],
           (parse (Stream.init f2)) as [[m2 s2]| |];
    simpl in Hagree; try contradiction; try discriminate.
  - destruct Hagree as [-> _]. reflexivity.
  - simpl. rewrite Hagree. reflexivity.
  - reflexivity.
Qed.

Lemma C9_same_lines_same_result_witness :
  run end_to_end_file = run renamed_file.
Proof.
  apply (C9_same_lines_same_result end_to_end_file renamed_file).
  reflexivity.
Defined.

(** ** C10: an underscore with no name after it *)

(** C10: on a current line that starts with [_], [parse_data_name] raises
    the index error of [split()[0]] exactly when nothing but whitespace
    follows the underscore, and returns a data name, moving to the next
    line, exactly when some other character follows it. *)
Theorem C10_underscore_without_name s line :
  Stream.curr s = Some line ->
  startswith line "_" = true ->
  (only_whitespace (slice_from 1 line) = true <->
   parse_data_name s = Raise (IndexError "list index out of range")) /\
  (only_whitespace (slice_from 1 line) = false <->
   exists data_name, parse_data_name s = Ok (Some data_name, Stream.next s)).
Proof.
  intros Hc Hp. unfold parse_data_name, bind, curr. rewrite Hc, Hp.
  cbn [negb].
  destruct (split (slice_from 1 line)) as [|d ds] eqn:Hs; cbv beta.
  - assert (Hw : only_whitespace (slice_from 1 line) = true)
      by (apply split_nil; exact Hs).
    rewrite Hw. repeat split; try reflexivity; try discriminate.
    intros [n H]. discriminate H.
  - assert (Hw : only_whitespace (slice_from 1 line) = false).
    { destruct (only_whitespace (slice_from 1 line)) eqn:Hw; [|reflexivity].
      apply split_nil in Hw. congruence. }
    rewrite Hw. repeat split; try discriminate.
    intros _. exists d. reflexivity.
Qed.

Lemma C10_underscore_without_name_witness :
  (only_whitespace nl = true <->
   parse_data_name (Stream.init underscore_only_file) =
   Raise (IndexError "list index out of range")) /\
  (only_whitespace nl = false <->
   exists data_name,
     parse_data_name (Stream.init underscore_only_file) =
     Ok (Some data_name, Stream.next (Stream.init underscore_only_file))).
Proof.
  apply (C10_underscore_without_name (Stream.init underscore_only_file)
           ("_" +:+ nl)); reflexivity.
Defined.


(** * Further properties of the code *)

(** ** Positions of the line cursor *)

Section Positions.

Lemma init_cursor file :
  Stream.init file = cursor (name file) 0 (file_lines file).
Proof. destruct file as [f [|l ls]]; reflexivity. Qed.

Lemma next_cursor_cons f i l ls :
  Stream.next (cursor f i (l :: ls)) = cursor f (S i) ls.
Proof. destruct ls; reflexivity. Qed.

Lemma next_cursor_nil f i : Stream.next (cursor f i []) = cursor f i [].
Proof. reflexivity. Qed.

Lemma curr_cursor f i ls : Stream.curr (cursor f i ls) = head ls.
Proof. destruct ls; reflexivity. Qed.

Lemma curr_cursor_cons f i l ls : Stream.curr (cursor f i (l :: ls)) = Some l.
Proof. reflexivity. Qed.

Lemma lines_left_cursor f i ls : Stream.lines_left (cursor f i ls) = length ls.
Proof. destruct ls; reflexivity. Qed.

Lemma iter_next_cursor n : forall f i ls,
  Nat.iter n Stream.next (cursor f i ls) =
  cursor f (i + min n (length ls)) (drop n ls).
Proof.
  induction n as [|n IH]; intros f i ls.
  - simpl. rewrite Nat.add_0_r, drop_0. reflexivity.
  - rewrite Nat.iter_succ_r. destruct ls as [|l ls].
    + rewrite next_cursor_nil, IH. simpl.
      rewrite Nat.min_0_r, drop_nil. reflexivity.
    + rewrite next_cursor_cons, IH. simpl. f_equal. lia.
Qed.

End Positions.

(** After [n] calls of [next] on a fresh cursor, with [n] below the number
    of lines, the current line is line [n] of the source (counting from 0)
    and [row] is [n + 1]. *)
Theorem cursor_on_nth_line file n line :
  file_lines file !! n = Some line ->
  Stream.curr (Nat.iter n Stream.next (Stream.init file)) = Some line /\
  Stream.row (Nat.iter n Stream.next (Stream.init file)) = Ok (S n).
Proof.
  intros Hn. rewrite init_cursor, iter_next_cursor.
  pose proof (lookup_lt_Some _ _ _ Hn) as Hlt.
  rewrite Nat.min_l by lia.
  destruct (drop n (file_lines file)) as [|l rest] eqn:Hdrop.
  - apply (f_equal length) in Hdrop. rewrite length_drop in Hdrop.
    simpl in Hdrop. lia.
  - assert (Hl : l = line).
    { pose proof (lookup_drop (file_lines file) n 0) as H.
      rewrite Hdrop, Nat.add_0_r, Hn in H. simpl in H. congruence. }
    subst l. split; [reflexivity|].
    unfold Stream.row. simpl. f_equal. lia.
Qed.

Lemma cursor_on_nth_line_witness :
  Stream.curr (Nat.iter 4 Stream.next (Stream.init end_to_end_file))
    = Some ("1 foo" +:+ nl) /\
  Stream.row (Nat.iter 4 Stream.next (Stream.init end_to_end_file)) = Ok 5.
Proof.
  apply (cursor_on_nth_line end_to_end_file 4 ("1 foo" +:+ nl)).
  reflexivity.
Defined.

(** Once [next] has been called at least as often as the source has lines,
    the cursor is exhausted and stays so: [curr] is [None], [row] raises,
    and a further [next] changes nothing. *)
Theorem cursor_exhausted_for_good file n :
  length (file_lines file) <= n ->
  let s := Nat.iter n Stream.next (Stream.init file) in
  Stream.curr s = None /\
  Stream.next s = s /\
  Stream.row s = Raise (TypeError "'NoneType' object is not subscriptable").
Proof.
  intros Hn. cbv zeta. rewrite init_cursor, iter_next_cursor.
  rewrite drop_ge by exact Hn. repeat split.
Qed.

Lemma cursor_exhausted_for_good_witness :
  let s := Nat.iter 9 Stream.next (Stream.init end_to_end_file) in
  Stream.curr s = None /\
  Stream.next s = s /\
  Stream.row s = Raise (TypeError "'NoneType' object is not subscriptable").
Proof.
  apply (cursor_exhausted_for_good end_to_end_file 9).
  vm_compute. lia.
Defined.

(** ** The exceptions that can leave the parser *)

Section Raises.

Context {A B : Type}.

Lemma raises_only_ret (a : A) : raises_only (ret a).
Proof. intros s e H. discriminate H. Qed.

Lemma raises_only_bind (p : parser A) (k : A -> parser B) :
  raises_only p -> (forall a, raises_only (k a)) -> raises_only (bind p k).
Proof.
  intros Hp Hk s e. unfold bind.
  destruct (p s) as [[a s1]| |] eqn:E; intros H.
  - exact (Hk a s1 e H).
  - inversion H. subst. exact (Hp s e E).
  - discriminate H.
Qed.

Lemma raises_only_description descr :
  raises_only (@raise_StarParseError A [PyString descr]).
Proof. intros s e H. inversion H. left. reflexivity. Qed.

Lemma raises_only_while (loop : nat -> parser A) :
  (forall fuel, raises_only (loop fuel)) -> raises_only (while_lines_left loop).
Proof. intros H s e. apply H. Qed.

End Raises.

Lemma raises_only_curr : raises_only curr.
Proof. intros s e H. discriminate H. Qed.

Lemma raises_only_next : raises_only next.
Proof. intros s e H. discriminate H. Qed.

Lemma raises_only_none_startswith {A} :
  raises_only
    (@raise A (AttributeError
                 "'NoneType' object has no attribute 'startswith'")).
Proof. intros s e H. inversion H. right. left. reflexivity. Qed.

Lemma raises_only_index {A} :
  raises_only (@raise A (IndexError "list index out of range")).
Proof. intros s e H. inversion H. right. right. reflexivity. Qed.

Lemma raises_only_out_of_fuel {A} : raises_only (@out_of_fuel A).
Proof. intros s e H. discriminate H. Qed.

Create HintDb raises.

#[local] Hint Resolve raises_only_ret raises_only_description
  raises_only_curr raises_only_next raises_only_none_startswith
  raises_only_index raises_only_out_of_fuel : raises.

Ltac raises_routine :=
  repeat first
    [ solve [auto with raises]
    | apply raises_only_bind; [| intros ?]
    | apply raises_only_while; intros ?
    | match goal with
      | |- raises_only (if ?b then _ else _) => destruct b
      | |- raises_only (match ?x with _ => _ end) => destruct x
      end ].

Lemma raises_only_accept item : raises_only (accept item).
Proof. unfold accept. raises_routine. Qed.

#[local] Hint Resolve raises_only_accept : raises.

Lemma raises_only_expect item : raises_only (expect item).
Proof. unfold expect. raises_routine. Qed.

Lemma raises_only_parse_data_name : raises_only parse_data_name.
Proof. unfold parse_data_name. raises_routine. Qed.

Lemma raises_only_end_of_rows : raises_only end_of_rows.
Proof. unfold end_of_rows. raises_routine. Qed.

#[local] Hint Resolve raises_only_expect raises_only_parse_data_name
  raises_only_end_of_rows : raises.

Lemma raises_only_data_names_loop fuel :
  forall data_names, raises_only (data_names_loop fuel data_names).
Proof.
  induction fuel as [|fuel IH]; intros data_names; simpl; raises_routine.
Qed.

(** In the row loop the current line is read only after
    [self.accept(None)] has failed, so it is never [None] there. *)
Lemma raises_only_rows_loop fuel :
  forall data_names rows, raises_only (rows_loop fuel data_names rows).
Proof.
  induction fuel as [|fuel IH]; intros data_names rows s e;
    [discriminate|].
  simpl. unfold bind at 1.
  destruct (end_of_rows s) as [[[|] s1]| |] eqn:E; intros H;
    try discriminate H.
  - apply end_of_rows_false in E as [-> Hc].
    revert H. unfold bind, curr.
    destruct (Stream.curr s) as [line|]; [|contradiction Hc; reflexivity].
    destruct (negb _).
    + apply raises_only_description.
    + simpl. apply IH.
  - inversion H. subst. exact (raises_only_end_of_rows s e E).
Qed.

#[local] Hint Resolve raises_only_data_names_loop
  raises_only_rows_loop : raises.

Lemma raises_only_parse_loop_content : raises_only parse_loop_content.
Proof. unfold parse_loop_content. raises_routine. Qed.

#[local] Hint Resolve raises_only_parse_loop_content : raises.

Lemma raises_only_parse_data_block : raises_only parse_data_block.
Proof. unfold parse_data_block. raises_routine. Qed.

#[local] Hint Resolve raises_only_parse_data_block : raises.

Lemma raises_only_skip_blank_lines fuel : raises_only (skip_blank_lines fuel).
Proof. induction fuel as [|fuel IH]; simpl; raises_routine. Qed.

Lemma raises_only_data_blocks_loop fuel :
  forall data_blocks, raises_only (data_blocks_loop fuel data_blocks).
Proof.
  induction fuel as [|fuel IH]; intros data_blocks; simpl; raises_routine.
Qed.

#[local] Hint Resolve raises_only_skip_blank_lines
  raises_only_data_blocks_loop : raises.

Lemma raises_only_parse : raises_only parse.
Proof. unfold parse. raises_routine. Qed.

(** On a source that yields its lines and then stops, without raising
    anything of its own, [StarParser(file).parse()] returns a mapping or
    raises one of three exceptions: the [TypeError] of a [StarParseError]
    built without its [stream] argument, the [AttributeError] of
    [startswith] on the [None] current line, or the [IndexError] of
    [split()[0]].  On such a source a [StarParseError] never leaves the
    parser. *)
Theorem parse_outcomes file :
  (exists data_blocks, run file = Ok data_blocks) \/
  run file = Raise missing_descr \/
  run file = Raise none_has_no_startswith \/
  run file = Raise index_out_of_range.
Proof.
  destruct (parse_total file) as [Hok | [e He]]; [left; exact Hok|].
  right. rewrite He.
  assert (He' : parse (Stream.init file) = Raise e).
  { unfold run in He.
    destruct (parse (Stream.init file)) as [[m s]| |]; simpl in He;
      congruence. }
  destruct (raises_only_parse _ _ He') as [-> | [-> | ->]]; auto.
Qed.

(** ** More on strings *)

Section MoreStrings.

Lemma string_of_list_ascii_snoc l c :
  string_of_list_ascii (l ++ [c]) =
  string_of_list_ascii l +:+ String c EmptyString.
Proof. induction l as [|a l IH]; simpl; [|rewrite IH]; reflexivity. Qed.

Lemma list_ascii_of_string_snoc s c :
  list_ascii_of_string (s +:+ String c EmptyString) =
  list_ascii_of_string s ++ [c].
Proof. induction s as [|a s IH]; simpl; [|rewrite IH]; reflexivity. Qed.

Lemma reverse_involutive s : reverse (reverse s) = s.
Proof.
  unfold reverse.
  rewrite list_ascii_of_string_of_list_ascii, rev_involutive.
  apply string_of_list_ascii_of_string.
Qed.

Lemma reverse_cons c s :
  reverse (String c s) = reverse s +:+ String c EmptyString.
Proof. unfold reverse. simpl. apply string_of_list_ascii_snoc. Qed.

Lemma reverse_snoc s c :
  reverse (s +:+ String c EmptyString) = String c (reverse s).
Proof.
  unfold reverse. rewrite list_ascii_of_string_snoc, rev_app_distr.
  reflexivity.
Qed.

Lemma lstrip_starts_nonspace s : starts_nonspace (lstrip s) = true.
Proof.
  induction s as [|c s IH]; [reflexivity|]. simpl.
  destruct (isspace c) eqn:Hc; [exact IH|]. simpl. rewrite Hc. reflexivity.
Qed.

Lemma lstrip_id s : starts_nonspace s = true -> lstrip s = s.
Proof.
  destruct s as [|c s]; [reflexivity|]. simpl.
  destruct (isspace c); [discriminate | reflexivity].
Qed.

Lemma lstrip_only_whitespace s :
  only_whitespace s = true -> lstrip s = EmptyString.
Proof.
  induction s as [|c s IH]; [reflexivity|]. simpl.
  destruct (isspace c); [exact IH | discriminate].
Qed.

Lemma lstrip_snoc s c :
  lstrip (s +:+ String c EmptyString) =
  if only_whitespace s && isspace c then EmptyString
  else lstrip s +:+ String c EmptyString.
Proof.
  induction s as [|a s IH]; simpl.
  - destruct (isspace c); reflexivity.
  - destruct (isspace a); simpl; [exact IH | reflexivity].
Qed.

Lemma rstrip_snoc_space s c :
  isspace c = true -> rstrip (s +:+ String c EmptyString) = rstrip s.
Proof.
  intros Hc. unfold rstrip. rewrite reverse_snoc. simpl. rewrite Hc.
  reflexivity.
Qed.

(** Whitespace at the very end does not change what [strip] returns: the
    block name on a tag line is the same with and without the line
    terminator. *)
Lemma strip_snoc_space s c :
  isspace c = true -> strip (s +:+ String c EmptyString) = strip s.
Proof.
  intros Hc. unfold strip. rewrite lstrip_snoc, Hc, andb_true_r.
  destruct (only_whitespace s) eqn:Hs.
  - rewrite lstrip_only_whitespace by exact Hs. reflexivity.
  - apply rstrip_snoc_space. exact Hc.
Qed.

Lemma strip_is_stripped s : is_stripped (strip s) = true.
Proof.
  unfold is_stripped, strip. apply andb_true_intro. split.
  - pose proof (lstrip_starts_nonspace s) as H.
    destruct (lstrip s) as [|c x]; [reflexivity|].
    simpl in H. apply negb_true_iff in H.
    unfold rstrip. rewrite reverse_cons, lstrip_snoc, H, andb_false_r.
    rewrite reverse_snoc. simpl. rewrite H. reflexivity.
  - unfold rstrip. rewrite reverse_involutive.
    apply lstrip_starts_nonspace.
Qed.

Lemma strip_stripped s : is_stripped s = true -> strip s = s.
Proof.
  unfold is_stripped, strip, rstrip. intros H.
  apply andb_prop in H as [H1 H2].
  rewrite (lstrip_id s H1), (lstrip_id _ H2).
  apply reverse_involutive.
Qed.

Lemma no_whitespace_of_list l :
  forallb (fun c => negb (isspace c)) l = true ->
  no_whitespace (string_of_list_ascii l) = true.
Proof.
  induction l as [|c l IH]; [reflexivity|]. simpl. intros H.
  apply andb_prop in H as [Hc Hl]. rewrite Hc, (IH Hl). reflexivity.
Qed.

Lemma flush_tokens tok rest :
  forallb (fun c => negb (isspace c)) tok = true ->
  Forall (fun t => is_token t = true) rest ->
  Forall (fun t => is_token t = true) (flush tok rest).
Proof.
  intros Htok Hrest. destruct tok as [|c tok]; [exact Hrest|].
  simpl. constructor; [|exact Hrest].
  assert (Hrev : forallb (fun c => negb (isspace c)) (rev (c :: tok)) = true).
  { apply forallb_forall. intros x Hx. apply in_rev in Hx.
    revert x Hx. apply forallb_forall. exact Htok. }
  pose proof (no_whitespace_of_list _ Hrev) as Hnw.
  simpl in *. destruct (rev tok ++ [c]) as [|a l] eqn:E.
  - destruct (rev tok); discriminate E.
  - exact Hnw.
Qed.

Lemma split_from_tokens s : forall tok,
  forallb (fun c => negb (isspace c)) tok = true ->
  Forall (fun t => is_token t = true) (split_from tok s).
Proof.
  induction s as [|c s IH]; intros tok Htok; simpl.
  - apply flush_tokens; [exact Htok | constructor].
  - destruct (isspace c) eqn:Hc.
    + apply flush_tokens; [exact Htok | apply IH; reflexivity].
    + apply IH. simpl. rewrite Hc. exact Htok.
Qed.

Lemma append_empty_r s : s +:+ EmptyString = s.
Proof.
  induction s as [|c s IH]; [reflexivity|].
  change (String c (s +:+ EmptyString) = String c s). rewrite IH.
  reflexivity.
Qed.

Lemma append_append a b c : (a +:+ b) +:+ c = a +:+ (b +:+ c).
Proof.
  induction a as [|x a IH]; [reflexivity|].
  change (String x ((a +:+ b) +:+ c) = String x (a +:+ (b +:+ c))).
  rewrite IH. reflexivity.
Qed.

Lemma split_from_token t : forall tok s,
  no_whitespace t = true ->
  split_from tok (t +:+ s) =
  split_from (rev (list_ascii_of_string t) ++ tok) s.
Proof.
  induction t as [|c t IH]; intros tok s Ht; [reflexivity|].
  simpl in Ht. apply andb_prop in Ht as [Hc Ht].
  apply negb_true_iff in Hc. simpl. rewrite Hc, (IH _ _ Ht).
  rewrite <- app_assoc. reflexivity.
Qed.

Lemma split_from_token_space t c s :
  is_token t = true -> isspace c = true ->
  split_from [] (t +:+ String c s) = t :: split_from [] s.
Proof.
  intros Ht Hc. destruct t as [|a t]; [discriminate Ht|].
  unfold is_token in Ht. rewrite (split_from_token _ _ _ Ht).
  cbn [split_from]. rewrite Hc, app_nil_r.
  destruct (rev (list_ascii_of_string (String a t))) as [|b l] eqn:E.
  - apply (f_equal (@length ascii)) in E. rewrite length_rev in E.
    discriminate E.
  - unfold flush. rewrite <- E, rev_involutive.
    rewrite string_of_list_ascii_of_string. reflexivity.
Qed.

Lemma split_from_token_end t :
  is_token t = true -> split_from [] t = [t].
Proof.
  intros Ht. destruct t as [|a t]; [discriminate Ht|].
  unfold is_token in Ht.
  pose proof (split_from_token (String a t) [] EmptyString Ht) as H.
  rewrite append_empty_r in H.
  rewrite H, app_nil_r. cbn [split_from].
  destruct (rev (list_ascii_of_string (String a t))) as [|b l] eqn:E.
  - apply (f_equal (@length ascii)) in E. rewrite length_rev in E.
    discriminate E.
  - unfold flush. rewrite <- E, rev_involutive.
    rewrite string_of_list_ascii_of_string. reflexivity.
Qed.

End MoreStrings.

(** [split()] returns tokens only: no item is empty and no item holds a
    whitespace character. *)
Theorem split_gives_tokens s :
  Forall (fun t => is_token t = true) (split s).
Proof. apply split_from_tokens. reflexivity. Qed.

(** Splitting a line made of tokens separated by single spaces and ended
    by the line terminator gives the tokens back, in order. *)
Theorem split_join_items items :
  Forall (fun t => is_token t = true) items ->
  split (join_items items +:+ nl) = items.
Proof.
  unfold split. induction items as [|x items IH]; intros Hall.
  - reflexivity.
  - apply Forall_cons in Hall as [Hx Hall].
    destruct items as [|y items].
    + simpl join_items. unfold nl.
      rewrite (split_from_token_space x LF EmptyString Hx) by reflexivity.
      reflexivity.
    + change (join_items (x :: y :: items))
        with (x +:+ String (ascii_of_nat 32) (join_items (y :: items))).
      rewrite append_append.
      change (String (ascii_of_nat 32) (join_items (y :: items)) +:+ nl)
        with (String (ascii_of_nat 32) (join_items (y :: items) +:+ nl)).
      rewrite (split_from_token_space x _ _ Hx) by reflexivity.
      rewrite (IH Hall). reflexivity.
Qed.

Lemma split_join_items_witness :
  split (join_items ["1"; "foo"] +:+ nl) = ["1"; "foo"].
Proof.
  apply (split_join_items ["1"; "foo"]).
  repeat constructor.
Defined.

(** ** What every returned block looks like *)

Section Entries.

Lemma parse_loop_content_Ok s t s' :
  parse_loop_content s = Ok (t, s') ->
  exists fuel1 fuel2 s1,
    data_names_loop fuel1 [] s = Ok (columns t, s1) /\
    columns t <> [] /\
    rows_loop fuel2 (columns t) [] s1 = Ok (rows t, s').
Proof.
  unfold parse_loop_content. intros H.
  apply bind_Ok in H as (data_names & s1 & Hnames & H).
  destruct data_names as [|n data_names].
  - destruct (raise_StarParseError_raises
                (A:=Table) [PyString no_data_names] s1) as [e He].
    simpl in H. congruence.
  - simpl in H. apply bind_Ok in H as (rws & s2 & Hrows & H).
    inversion H. subst. unfold while_lines_left in *. simpl.
    eauto 10.
Qed.

Lemma parse_data_block_Ok s block_name t s' :
  parse_data_block s = Ok (Some (block_name, t), s') ->
  exists line s1,
    Stream.curr s = Some line /\
    block_name = strip (slice_from 5 line) /\
    parse_loop_content s1 = Ok (t, s').
Proof.
  unfold parse_data_block. intros H.
  apply bind_Ok in H as (c & s0 & Hc & H).
  inversion Hc. subst. clear Hc.
  destruct (Stream.curr s0) as [line|]; [|discriminate H].
  destruct (negb _); [discriminate H|].
  apply bind_Ok in H as (u1 & s2 & _ & H).
  apply bind_Ok in H as (u2 & s3 & _ & H).
  apply bind_Ok in H as (u3 & s4 & _ & H).
  apply bind_Ok in H as (loop_content & s5 & Hloop & H).
  inversion H. subst. eauto.
Qed.

(** What holds of every block recognised by [parse_data_block] holds of
    every entry of the mapping returned by [parse]. *)
Lemma parse_entries (R : string -> Table -> Prop) :
  (forall s block_name t s',
     parse_data_block s = Ok (Some (block_name, t), s') -> R block_name t) ->
  forall file (data_blocks : StarFile),
    run file = Ok data_blocks -> map_Forall R data_blocks.
Proof.
  intros HR file data_blocks Hrun.
  assert (Hloop : forall fuel (m : StarFile) s m' s',
             map_Forall R m ->
             data_blocks_loop fuel m s = Ok (m', s') -> map_Forall R m').
  { induction fuel as [|fuel IH]; intros m s m' s' Hm H; [discriminate H|].
    simpl in H.
    apply bind_Ok in H as ([[block_name t]|] & s1 & Hblock & H).
    - apply IH in H; [exact H|].
      apply map_Forall_insert_2; [|exact Hm].
      eapply HR. exact Hblock.
    - inversion H. subst. exact Hm. }
  unfold run, parse, while_lines_left in Hrun.
  destruct (bind _ _ (Stream.init file)) as [[m s']| |] eqn:E;
    try discriminate Hrun.
  simpl in Hrun. inversion Hrun. subst m. clear Hrun.
  apply bind_Ok in E as (u & s1 & _ & E).
  eapply Hloop; [|exact E]. apply map_Forall_empty.
Qed.

Lemma data_names_loop_tokens fuel : forall data_names s names s',
  Forall (fun n => is_token n = true) data_names ->
  data_names_loop fuel data_names s = Ok (names, s') ->
  Forall (fun n => is_token n = true) names.
Proof.
  induction fuel as [|fuel IH]; intros data_names s names s' Hacc H;
    [discriminate H|].
  simpl in H. apply bind_Ok in H as ([n|] & s1 & Hname & H).
  - apply IH in H; [exact H|].
    apply Forall_app. split; [exact Hacc|].
    constructor; [|constructor].
    apply parse_data_name_Some in Hname as (line & _ & _ & Hhd & _).
    pose proof (split_gives_tokens (slice_from 1 line)) as Htok.
    destruct (split (slice_from 1 line)) as [|d ds]; [discriminate Hhd|].
    simpl in Hhd. inversion Hhd. subst.
    apply Forall_cons in Htok as [Hd _]. exact Hd.
  - inversion H. subst. exact Hacc.
Qed.

Lemma rows_loop_tokens fuel : forall data_names rows s rows' s',
  Forall (Forall (fun v => is_token v = true)) rows ->
  rows_loop fuel data_names rows s = Ok (rows', s') ->
  Forall (Forall (fun v => is_token v = true)) rows'.
Proof.
  induction fuel as [|fuel IH]; intros data_names rows s rows' s' Hrows H;
    [discriminate H|].
  simpl in H.
  apply bind_Ok in H as ([|] & s1 & _ & H).
  - inversion H. subst. exact Hrows.
  - apply bind_Ok in H as ([line|] & s2 & _ & H); [|discriminate H].
    destruct (negb _).
    + destruct (raise_StarParseError_raises
                  (A:=list (list string)) [PyString row_mismatch] s2)
        as [e He].
      congruence.
    + apply bind_Ok in H as (u & s3 & _ & H).
      apply IH in H; [exact H|].
      apply Forall_app. split; [exact Hrows|].
      constructor; [|constructor]. apply split_gives_tokens.
Qed.

End Entries.

(** Every table of a returned mapping has at least one column. *)
Theorem parse_columns_nonempty file (data_blocks : StarFile) block_name t :
  run file = Ok data_blocks ->
  data_blocks !! block_name = Some t ->
  0 < length (columns t).
Proof.
  intros Hrun Hlookup.
  refine (parse_entries (fun _ t => 0 < length (columns t)) _
            file data_blocks Hrun block_name t Hlookup).
  intros s n t0 s' H.
  apply parse_data_block_Ok in H as (line & s1 & _ & _ & H).
  apply parse_loop_content_Ok in H as (f1 & f2 & s2 & _ & Hne & _).
  destruct (columns t0); [contradiction Hne; reflexivity | simpl; lia].
Qed.

Lemma parse_columns_nonempty_witness : 0 < 2.
Proof.
  apply (parse_columns_nonempty end_to_end_file
           {[ "test" := mkTable ["id"; "value"] [["1"; "foo"]; ["2"; "bar"]] ]}
           "test"
           (mkTable ["id"; "value"] [["1"; "foo"]; ["2"; "bar"]]));
    vm_compute; reflexivity.
Defined.

(** In every table of a returned mapping, the column names and the values
    of the rows are tokens: none is empty and none holds whitespace. *)
Theorem parse_names_and_values_are_tokens
    file (data_blocks : StarFile) block_name t :
  run file = Ok data_blocks ->
  data_blocks !! block_name = Some t ->
  Forall (fun n => is_token n = true) (columns t) /\
  Forall (Forall (fun v => is_token v = true)) (rows t).
Proof.
  intros Hrun Hlookup.
  refine (parse_entries
            (fun _ t => Forall (fun n => is_token n = true) (columns t) /\
                        Forall (Forall (fun v => is_token v = true)) (rows t))
            _ file data_blocks Hrun block_name t Hlookup).
  intros s n t0 s' H.
  apply parse_data_block_Ok in H as (line & s1 & _ & _ & H).
  apply parse_loop_content_Ok in H as (f1 & f2 & s2 & Hnames & _ & Hrows).
  split.
  - eapply data_names_loop_tokens; [|exact Hnames]. constructor.
  - eapply rows_loop_tokens; [|exact Hrows]. constructor.
Qed.

Lemma parse_names_and_values_are_tokens_witness :
  Forall (fun n => is_token n = true) ["id"; "value"] /\
  Forall (Forall (fun v => is_token v = true)) [["1"; "foo"]; ["2"; "bar"]].
Proof.
  apply (parse_names_and_values_are_tokens end_to_end_file
           {[ "test" := mkTable ["id"; "value"] [["1"; "foo"]; ["2"; "bar"]] ]}
           "test"
           (mkTable ["id"; "value"] [["1"; "foo"]; ["2"; "bar"]]));
    vm_compute; reflexivity.
Defined.

(** Every block name of a returned mapping is stripped: it has no
    whitespace at its start or at its end. *)
Theorem parse_block_names_stripped file (data_blocks : StarFile) block_name t :
  run file = Ok data_blocks ->
  data_blocks !! block_name = Some t ->
  is_stripped block_name = true.
Proof.
  intros Hrun Hlookup.
  refine (parse_entries (fun n _ => is_stripped n = true) _
            file data_blocks Hrun block_name t Hlookup).
  intros s n t0 s' H.
  apply parse_data_block_Ok in H as (line & s1 & _ & -> & _).
  apply strip_is_stripped.
Qed.

Lemma parse_block_names_stripped_witness : is_stripped "test" = true.
Proof.
  apply (parse_block_names_stripped end_to_end_file
           {[ "test" := mkTable ["id"; "value"] [["1"; "foo"]; ["2"; "bar"]] ]}
           "test"
           (mkTable ["id"; "value"] [["1"; "foo"]; ["2"; "bar"]]));
    vm_compute; reflexivity.
Defined.

(** ** The routines on a cursor given by its lines *)

Section OnLines.

Variables (f : string).

Lemma accept_hit i l ls :
  accept (Some l) (cursor f i (l :: ls)) = Ok (true, cursor f (S i) ls).
Proof.
  rewrite accept_run, curr_cursor, next_cursor_cons. simpl.
  rewrite decide_True by reflexivity. reflexivity.
Qed.

Lemma accept_miss item i ls :
  head ls <> item -> accept item (cursor f i ls) = Ok (false, cursor f i ls).
Proof.
  intros H. rewrite accept_run, curr_cursor.
  rewrite decide_False by exact H. reflexivity.
Qed.

Lemma accept_None_exhausted i :
  accept None (cursor f i []) = Ok (true, cursor f i []).
Proof. reflexivity. Qed.

Lemma parse_data_name_name i l ls :
  is_data_name_line l = true ->
  parse_data_name (cursor f i (l :: ls)) =
  Ok (Some (data_name_of l), cursor f (S i) ls).
Proof.
  unfold is_data_name_line, data_name_of. intros H.
  apply andb_prop in H as [Hp Hw]. apply negb_true_iff in Hw.
  unfold parse_data_name, bind, curr. rewrite curr_cursor_cons.
  rewrite Hp. cbn [negb].
  destruct (split (slice_from 1 l)) as [|d ds] eqn:Hs.
  - apply split_nil in Hs. congruence.
  - unfold next, ret. rewrite next_cursor_cons. reflexivity.
Qed.

Lemma parse_data_name_stop i l ls :
  startswith l "_" = false ->
  parse_data_name (cursor f i (l :: ls)) = Ok (None, cursor f i (l :: ls)).
Proof.
  intros Hp. unfold parse_data_name, bind, curr. rewrite curr_cursor_cons. rewrite Hp. reflexivity.
Qed.

Lemma parse_data_name_exhausted i :
  parse_data_name (cursor f i []) = Raise none_has_no_startswith.
Proof. reflexivity. Qed.

Lemma parse_data_name_no_name i l ls :
  startswith l "_" = true ->
  only_whitespace (slice_from 1 l) = true ->
  parse_data_name (cursor f i (l :: ls)) = Raise index_out_of_range.
Proof.
  intros Hp Hw. unfold parse_data_name, bind, curr. rewrite curr_cursor_cons. rewrite Hp. cbn [negb].
  apply split_nil in Hw. rewrite Hw. reflexivity.
Qed.

(** The names loop takes the first token after the underscore of every
    data-name line and hands over at whatever comes next. *)
Lemma data_names_loop_lines names_lines : forall fuel data_names i rest,
  forallb is_data_name_line names_lines = true ->
  length names_lines < fuel ->
  data_names_loop fuel data_names (cursor f i (names_lines ++ rest)) =
  data_names_loop (fuel - length names_lines)
    (data_names ++ map data_name_of names_lines)
    (cursor f (i + length names_lines) rest).
Proof.
  induction names_lines as [|l ls IH]; intros fuel data_names i rest Hall Hf.
  - simpl. rewrite Nat.sub_0_r, Nat.add_0_r, app_nil_r. reflexivity.
  - simpl in Hall. apply andb_prop in Hall as [Hl Hall].
    destruct fuel as [|fuel]; [simpl in Hf; lia|].
    change ((l :: ls) ++ rest) with (l :: (ls ++ rest)).
    cbn [data_names_loop]. unfold bind at 1.
    rewrite (parse_data_name_name i l (ls ++ rest) Hl).
    rewrite IH by (try exact Hall; simpl in Hf; lia).
    rewrite <- app_assoc. cbn [length map app Nat.sub].
    replace (i + S (length ls)) with (S i + length ls) by lia.
    reflexivity.
Qed.

Lemma end_of_rows_blank i ls :
  end_of_rows (cursor f i (nl :: ls)) = Ok (true, cursor f (S i) ls).
Proof. unfold end_of_rows, bind. rewrite accept_hit. reflexivity. Qed.

Lemma end_of_rows_exhausted i :
  end_of_rows (cursor f i []) = Ok (true, cursor f i []).
Proof. reflexivity. Qed.

Lemma end_of_rows_line i l ls :
  l <> nl ->
  end_of_rows (cursor f i (l :: ls)) = Ok (false, cursor f i (l :: ls)).
Proof.
  intros Hl. unfold end_of_rows, bind.
  rewrite accept_miss by (simpl; congruence).
  rewrite accept_miss by (simpl; congruence). reflexivity.
Qed.

Lemma is_row_line_inv n l :
  is_row_line n l = true -> l <> nl /\ length (split l) = n.
Proof.
  unfold is_row_line. intros H. apply andb_prop in H as [H1 H2].
  apply negb_true_iff, String.eqb_neq in H1. apply Nat.eqb_eq in H2. auto.
Qed.

(** The row loop splits every row line and hands over at whatever comes
    next. *)
Lemma rows_loop_lines row_lines : forall fuel data_names rows i rest,
  forallb (is_row_line (length data_names)) row_lines = true ->
  length row_lines < fuel ->
  rows_loop fuel data_names rows (cursor f i (row_lines ++ rest)) =
  rows_loop (fuel - length row_lines) data_names
    (rows ++ map split row_lines)
    (cursor f (i + length row_lines) rest).
Proof.
  induction row_lines as [|l ls IH]; intros fuel data_names rows i rest Hall Hf.
  - simpl. rewrite Nat.sub_0_r, Nat.add_0_r, app_nil_r. reflexivity.
  - simpl in Hall. apply andb_prop in Hall as [Hl Hall].
    apply is_row_line_inv in Hl as [Hnl Hlen].
    destruct fuel as [|fuel]; [simpl in Hf; lia|].
    change ((l :: ls) ++ rest) with (l :: (ls ++ rest)).
    cbn [rows_loop]. unfold bind at 1.
    rewrite (end_of_rows_line i l (ls ++ rest) Hnl).
    unfold bind at 1, curr at 1. rewrite curr_cursor_cons.
    rewrite Hlen, Nat.eqb_refl. cbn [negb].
    unfold bind at 1, next at 1. rewrite next_cursor_cons.
    rewrite IH by (try exact Hall; simpl in Hf; lia).
    rewrite <- app_assoc. cbn [length map app Nat.sub].
    replace (i + S (length ls)) with (S i + length ls) by lia.
    reflexivity.
Qed.

Lemma rows_loop_end fuel data_names rows i ending :
  ends_rows ending = true ->
  rows_loop (S fuel) data_names rows (cursor f i ending) =
  Ok (rows, cursor f (i + length (take 1 ending)) (drop 1 ending)).
Proof.
  destruct ending as [|l rest]; intros H; simpl in H.
  - simpl. rewrite Nat.add_0_r. reflexivity.
  - apply String.eqb_eq in H. subst l.
    cbn [rows_loop]. unfold bind. rewrite end_of_rows_blank.
    simpl. rewrite drop_0. replace (i + 1) with (S i) by lia. reflexivity.
Qed.

End OnLines.

(** ** One data block *)

#[local] Arguments cursor : simpl never.

Section OneBlock.

Variables (f : string).

Lemma data_names_loop_stop fuel data_names i rest :
  names_end_here rest = true ->
  data_names_loop (S fuel) data_names (cursor f i rest) =
  Ok (data_names, cursor f i rest).
Proof.
  destruct rest as [|l rest]; [discriminate|]. simpl. intros H.
  apply negb_true_iff in H. unfold bind.
  rewrite (parse_data_name_stop f i l rest H). reflexivity.
Qed.

Lemma tag_not_nl tag : startswith tag "data_" = true -> tag <> nl.
Proof. intros H ->. discriminate H. Qed.

Lemma loop_line_not_nl : loop_line <> nl.
Proof. discriminate. Qed.

(** The header of a block: the tag line, at most one blank line and the
    [loop_] line are consumed, and the block name is the stripped rest of
    the tag line. *)
Lemma parse_data_block_header i tag gap body :
  startswith tag "data_" = true ->
  is_gap gap = true ->
  parse_data_block (cursor f i (tag :: gap ++ loop_line :: body)) =
  (loop_content <~ parse_loop_content ;;
   ret (Some (strip (slice_from 5 tag), loop_content)))
    (cursor f (i + length gap + 2) body).
Proof.
  intros Htag Hgap.
  unfold parse_data_block. unfold bind at 1, curr at 1.
  rewrite curr_cursor_cons, Htag. cbn [negb].
  unfold bind at 1, next at 1. rewrite next_cursor_cons.
  destruct gap as [|g [|g' gap]]; simpl in Hgap; try discriminate Hgap.
  - cbn [app length]. unfold bind at 1.
    rewrite accept_miss by (simpl; intros [=H]; discriminate H).
    unfold bind at 1, expect, bind at 1.
    rewrite accept_hit. cbn [negb ret].
    replace (i + 0 + 2) with (S (S i)) by lia. reflexivity.
  - apply String.eqb_eq in Hgap. subst g.
    cbn [app length]. unfold bind at 1.
    rewrite accept_hit.
    unfold bind at 1, expect, bind at 1.
    rewrite accept_hit. cbn [negb ret].
    replace (i + 1 + 2) with (S (S (S i))) by lia. reflexivity.
Qed.

(** The body of a loop: data-name lines, then row lines, then a blank
    line or the end of input. *)
Lemma parse_loop_content_lines i names_lines row_lines ending :
  names_lines <> [] ->
  forallb is_data_name_line names_lines = true ->
  forallb (is_row_line (length names_lines)) row_lines = true ->
  names_end_here (row_lines ++ ending) = true ->
  ends_rows ending = true ->
  parse_loop_content (cursor f i (names_lines ++ row_lines ++ ending)) =
  Ok (mkTable (map data_name_of names_lines) (map split row_lines),
      cursor f (i + length names_lines + length row_lines
                + length (take 1 ending)) (drop 1 ending)).
Proof.
  intros Hne Hnames Hrows Hstop Hend.
  unfold parse_loop_content. unfold bind at 1, while_lines_left at 1.
  rewrite lines_left_cursor.
  rewrite data_names_loop_lines
    by (try exact Hnames; rewrite length_app; lia).
  replace (S (length (names_lines ++ row_lines ++ ending))
           - length names_lines)
    with (S (length (row_lines ++ ending)))
    by (rewrite (length_app names_lines); lia).
  rewrite data_names_loop_stop by exact Hstop.
  cbn [app]. rewrite length_map.
  destruct (Nat.eqb (length names_lines) 0) eqn:Hz.
  { apply Nat.eqb_eq in Hz. destruct names_lines; [contradiction|].
    discriminate Hz. }
  unfold bind at 1, while_lines_left at 1. rewrite lines_left_cursor.
  rewrite rows_loop_lines
    by (rewrite ?length_map, ?length_app; try exact Hrows; lia).
  replace (S (length (row_lines ++ ending)) - length row_lines)
    with (S (length ending)) by (rewrite length_app; lia).
  rewrite rows_loop_end by exact Hend.
  reflexivity.
Qed.

Lemma parse_data_block_stop i tail :
  ignored_tail tail = true ->
  parse_data_block (cursor f i tail) = Ok (None, cursor f i tail).
Proof.
  destruct tail as [|l tail]; [reflexivity|]. simpl. intros H.
  unfold parse_data_block, bind, curr. rewrite curr_cursor_cons, H.
  reflexivity.
Qed.

Lemma skip_blank_lines_stop fuel i l ls :
  l <> nl ->
  skip_blank_lines (S fuel) (cursor f i (l :: ls)) =
  Ok (tt, cursor f i (l :: ls)).
Proof.
  intros H. simpl. unfold bind.
  rewrite accept_miss by (simpl; congruence). reflexivity.
Qed.

End OneBlock.

(** ** Several data blocks *)

Section SeveralBlocks.

Variables (f : string).

Lemma run_cursor ls : run (mkFile f ls) = value_of (parse (cursor f 0 ls)).
Proof. unfold run. rewrite init_cursor. reflexivity. Qed.

Lemma skip_blank_lines_lines k : forall fuel i l ls,
  l <> nl -> k < fuel ->
  skip_blank_lines fuel (cursor f i (repeat nl k ++ l :: ls)) =
  Ok (tt, cursor f (i + k) (l :: ls)).
Proof.
  induction k as [|k IH]; intros fuel i l ls Hl Hf;
    (destruct fuel as [|fuel]; [lia|]).
  - cbn [repeat app]. rewrite Nat.add_0_r.
    apply skip_blank_lines_stop. exact Hl.
  - cbn [repeat app skip_blank_lines]. unfold bind.
    rewrite accept_hit. rewrite IH by (try exact Hl; lia).
    replace (S i + k) with (i + S k) by lia. reflexivity.
Qed.

(** After leading blank lines, [parse] is its block loop started on the
    first line that is not blank. *)
Lemma parse_leading_blanks k i l ls :
  l <> nl ->
  parse (cursor f i (repeat nl k ++ l :: ls)) =
  data_blocks_loop (S (S (length ls))) ∅ (cursor f (i + k) (l :: ls)).
Proof.
  intros Hl. unfold parse, bind, while_lines_left.
  rewrite lines_left_cursor, length_app, repeat_length.
  rewrite skip_blank_lines_lines by (try exact Hl; lia).
  rewrite lines_left_cursor. reflexivity.
Qed.

Lemma data_blocks_loop_block fuel (m : StarFile) s block_name t s' :
  parse_data_block s = Ok (Some (block_name, t), s') ->
  data_blocks_loop (S fuel) m s =
  data_blocks_loop fuel (<[block_name := t]> m) s'.
Proof. intros H. simpl. unfold bind. rewrite H. reflexivity. Qed.

Lemma data_blocks_loop_stop fuel (m : StarFile) s s' :
  parse_data_block s = Ok (None, s') ->
  data_blocks_loop (S fuel) m s = Ok (m, s').
Proof. intros H. simpl. unfold bind. rewrite H. reflexivity. Qed.

Lemma data_blocks_loop_raise fuel (m : StarFile) s e :
  parse_data_block s = Raise e ->
  data_blocks_loop (S fuel) m s = Raise e.
Proof. intros H. simpl. unfold bind. rewrite H. reflexivity. Qed.

End SeveralBlocks.

(** ** The lines written for a block *)

Section Written.

Lemma is_token_inv t :
  is_token t = true ->
  exists a t', t = String a t' /\ isspace a = false.
Proof.
  destruct t as [|a t']; [discriminate|]. simpl. intros H.
  apply andb_prop in H as [Ha _]. apply negb_true_iff in Ha. eauto.
Qed.

Lemma join_items_cons x rest :
  exists tail, join_items (x :: rest) = x +:+ tail.
Proof.
  destruct rest as [|y rest].
  - exists EmptyString. simpl. rewrite append_empty_r. reflexivity.
  - eexists. reflexivity.
Qed.

Lemma startswith_append p s : startswith (p +:+ s) p = true.
Proof.
  unfold startswith. induction p as [|a p IH].
  - destruct s; reflexivity.
  - simpl. destruct (ascii_dec a a) as [_|Hne]; [exact IH|].
    contradiction Hne. reflexivity.
Qed.

Lemma tag_line_startswith block_name :
  startswith (tag_line block_name) "data_" = true.
Proof. apply startswith_append. Qed.

Lemma tag_line_block_name block_name :
  is_stripped block_name = true ->
  strip (slice_from 5 (tag_line block_name)) = block_name.
Proof.
  intros H.
  change (slice_from 5 (tag_line block_name)) with (block_name +:+ nl).
  unfold nl. rewrite strip_snoc_space by reflexivity.
  apply strip_stripped. exact H.
Qed.

Lemma split_token_nl t : is_token t = true -> split (t +:+ nl) = [t].
Proof.
  intros H. unfold split, nl.
  rewrite (split_from_token_space t LF EmptyString H) by reflexivity.
  reflexivity.
Qed.

Lemma data_name_line_is_name t :
  is_token t = true -> is_data_name_line (data_name_line t) = true.
Proof.
  intros H. unfold is_data_name_line.
  unfold data_name_line at 1. rewrite startswith_append.
  change (slice_from 1 (data_name_line t)) with (t +:+ nl).
  cbn [andb]. apply negb_true_iff.
  destruct (only_whitespace (t +:+ nl)) eqn:Hw; [|reflexivity].
  apply split_nil in Hw. rewrite (split_token_nl t H) in Hw. discriminate Hw.
Qed.

Lemma data_name_of_line t :
  is_token t = true -> data_name_of (data_name_line t) = t.
Proof.
  intros H. unfold data_name_of.
  change (slice_from 1 (data_name_line t)) with (t +:+ nl).
  rewrite (split_token_nl t H). reflexivity.
Qed.

Lemma row_line_not_nl r :
  r <> [] -> Forall (fun v => is_token v = true) r -> row_line r <> nl.
Proof.
  intros Hne Hall. destruct r as [|x rest]; [contradiction|].
  apply Forall_cons in Hall as [Hx _].
  apply is_token_inv in Hx as (a & t' & -> & Ha).
  destruct (join_items_cons (String a t') rest) as [tail Htail].
  unfold row_line. rewrite Htail. intros H.
  inversion H. subst a. discriminate Ha.
Qed.

Lemma forallb_Forall_true {A} (p : A -> bool) l :
  forallb p l = true <-> Forall (fun x => p x = true) l.
Proof.
  rewrite forallb_forall, Forall_forall.
  split; intros H x Hx; apply H; apply list_elem_of_In; exact Hx.
Qed.

Lemma writable_table_inv t :
  writable_table t = true ->
  columns t <> [] /\
  Forall (fun n => is_token n = true) (columns t) /\
  Forall (fun r => length r = length (columns t) /\
                   Forall (fun v => is_token v = true) r) (rows t) /\
  names_end_here (map row_line (rows t) ++ [nl]) = true.
Proof.
  unfold writable_table. intros H.
  apply andb_prop in H as [H Hstop].
  apply andb_prop in H as [H Hrows].
  apply andb_prop in H as [Hne Hcols].
  repeat split.
  - intros E. rewrite E in Hne. discriminate Hne.
  - apply forallb_Forall_true. exact Hcols.
  - apply forallb_Forall_true in Hrows.
    eapply Forall_impl; [exact Hrows|]. intros r Hr. simpl in Hr.
    apply andb_prop in Hr as [Hlen Htok].
    apply Nat.eqb_eq in Hlen. apply forallb_Forall_true in Htok. auto.
  - exact Hstop.
Qed.

Lemma written_names_are_names cols :
  Forall (fun n => is_token n = true) cols ->
  forallb is_data_name_line (map data_name_line cols) = true /\
  map data_name_of (map data_name_line cols) = cols.
Proof.
  induction 1 as [|c cols Hc _ [IH1 IH2]]; [split; reflexivity|].
  cbn [map forallb]. rewrite IH1, IH2.
  rewrite (data_name_line_is_name c Hc), (data_name_of_line c Hc).
  split; reflexivity.
Qed.

Lemma written_rows_are_rows n rws :
  0 < n ->
  Forall (fun r => length r = n /\ Forall (fun v => is_token v = true) r)
    rws ->
  forallb (is_row_line n) (map row_line rws) = true /\
  map split (map row_line rws) = rws.
Proof.
  intros Hn. induction 1 as [|r rws [Hlen Htok] _ [IH1 IH2]];
    [split; reflexivity|].
  cbn [map forallb]. rewrite IH1, IH2.
  assert (Hsplit : split (row_line r) = r)
    by (apply split_join_items; exact Htok).
  rewrite Hsplit. split; [|reflexivity].
  rewrite andb_true_r. unfold is_row_line. rewrite Hsplit, Hlen.
  rewrite Nat.eqb_refl, andb_true_r.
  apply negb_true_iff, String.eqb_neq.
  apply row_line_not_nl; [|exact Htok].
  intros ->. simpl in Hlen. lia.
Qed.

Lemma names_end_here_app ls rest rest' :
  names_end_here (ls ++ nl :: rest) = names_end_here (ls ++ nl :: rest').
Proof. destruct ls; reflexivity. Qed.

Lemma length_block_lines b :
  length (block_lines b) =
  3 + length (columns (snd b)) + length (rows (snd b)).
Proof.
  unfold block_lines. cbn [length].
  rewrite !length_app, !length_map. simpl. lia.
Qed.

(** Reading back the lines written for a block gives the block. *)
Lemma parse_data_block_written f i b rest :
  writable_block b = true ->
  parse_data_block (cursor f i (block_lines b ++ rest)) =
  Ok (Some b, cursor f (i + length (block_lines b)) rest).
Proof.
  destruct b as [block_name [cols rws]]. unfold writable_block.
  intros H. apply andb_prop in H as [Hname Htable].
  apply writable_table_inv in Htable as (Hne & Hcols & Hrows & Hstop).
  cbn [fst snd columns rows] in *.
  destruct (written_names_are_names cols Hcols) as [Hn1 Hn2].
  assert (Hpos : 0 < length cols)
    by (destruct cols; [contradiction | simpl; lia]).
  destruct (written_rows_are_rows (length cols) rws Hpos Hrows)
    as [Hr1 Hr2].
  rewrite length_block_lines. cbn [fst snd columns rows].
  unfold block_lines. cbn [fst snd columns rows].
  change ((tag_line block_name :: loop_line ::
           map data_name_line cols ++ map row_line rws ++ [nl]) ++ rest)
    with (tag_line block_name :: [] ++ loop_line ::
          (map data_name_line cols ++ map row_line rws ++ [nl]) ++ rest).
  rewrite parse_data_block_header
    by (try apply tag_line_startswith; reflexivity).
  rewrite <- !app_assoc. cbn [app length].
  unfold bind.
  rewrite (parse_loop_content_lines f (i + 0 + 2)
             (map data_name_line cols) (map row_line rws) (nl :: rest)).
  - rewrite Hn2, Hr2, (tag_line_block_name block_name Hname).
    rewrite !length_map. cbn [take length drop]. rewrite take_0, drop_0.
    cbn [length].
    replace (i + 0 + 2 + length cols + length rws + 1)
      with (i + (3 + length cols + length rws)) by lia.
    reflexivity.
  - intros E. apply (f_equal (@length string)) in E.
    rewrite length_map in E. simpl in E. lia.
  - exact Hn1.
  - rewrite length_map. exact Hr1.
  - rewrite (names_end_here_app _ rest []). exact Hstop.
  - reflexivity.
Qed.

End Written.

(** ** Reading back what was written *)

Section ReadBack.

Variables (f : string).

Lemma star_lines_cons b bs :
  star_lines (b :: bs) = block_lines b ++ star_lines bs.
Proof. reflexivity. Qed.

Lemma length_star_lines bs : length bs <= length (star_lines bs).
Proof.
  induction bs as [|b bs IH]; [reflexivity|].
  rewrite star_lines_cons, length_app, length_block_lines. simpl. lia.
Qed.

(** The block loop reads written blocks one after the other and stores
    them in order. *)
Lemma data_blocks_loop_written bs : forall fuel (m : StarFile) i rest,
  forallb writable_block bs = true ->
  length bs <= fuel ->
  data_blocks_loop fuel m (cursor f i (star_lines bs ++ rest)) =
  data_blocks_loop (fuel - length bs) (store_blocks m bs)
    (cursor f (i + length (star_lines bs)) rest).
Proof.
  induction bs as [|[block_name t] bs IH]; intros fuel m i rest Hall Hf.
  - cbn [star_lines flat_map app length store_blocks fold_left].
    rewrite Nat.sub_0_r, Nat.add_0_r. reflexivity.
  - cbn [forallb] in Hall. apply andb_prop in Hall as [Hb Hall].
    destruct fuel as [|fuel]; [simpl in Hf; lia|].
    rewrite star_lines_cons, <- app_assoc.
    rewrite (data_blocks_loop_block fuel m _ block_name t _
               (parse_data_block_written f i (block_name, t) _ Hb)).
    rewrite IH by (try exact Hall; simpl in Hf; lia).
    rewrite length_app. cbn [length Nat.sub].
    replace (i + length (block_lines (block_name, t)) + length (star_lines bs))
      with (i + (length (block_lines (block_name, t))
                 + length (star_lines bs))) by lia.
    reflexivity.
Qed.

(** A file that starts, after any blank lines, with written blocks:
    [parse] is the block loop at the line after them, with the written
    blocks stored. *)
Lemma run_written_prefix k bs rest :
  forallb writable_block bs = true ->
  (exists l ls, star_lines bs ++ rest = l :: ls /\ l <> nl) ->
  run (mkFile f (repeat nl k ++ star_lines bs ++ rest)) =
  value_of (data_blocks_loop
              (S (length (star_lines bs ++ rest) - length bs))
              (store_blocks ∅ bs)
              (cursor f (k + length (star_lines bs)) rest)).
Proof.
  intros Hall (l & ls & Hls & Hl).
  rewrite run_cursor, Hls, (parse_leading_blanks f k 0 l ls Hl), <- Hls.
  assert (Hlen : length bs <= length (star_lines bs ++ rest)).
  { pose proof (length_star_lines bs) as H1. rewrite length_app. lia. }
  assert (Hls' : S (length ls) = length (star_lines bs ++ rest))
    by (rewrite Hls; reflexivity).
  rewrite Hls'.
  rewrite data_blocks_loop_written by (try exact Hall; lia).
  replace (S (length (star_lines bs ++ rest)) - length bs)
    with (S (length (star_lines bs ++ rest) - length bs)) by lia.
  reflexivity.
Qed.

(** The same when the next line is a tag line: what the block at that
    line raises is what [parse] raises. *)
Lemma run_raise_after_written k bs tag more e :
  forallb writable_block bs = true ->
  startswith tag "data_" = true ->
  parse_data_block (cursor f (k + length (star_lines bs)) (tag :: more)) =
    Raise e ->
  run (mkFile f (repeat nl k ++ star_lines bs ++ tag :: more)) = Raise e.
Proof.
  intros Hall Htag Hraise.
  rewrite run_written_prefix; [|exact Hall|].
  - rewrite (data_blocks_loop_raise _ _ _ e Hraise). reflexivity.
  - destruct bs as [|b bs].
    + exists tag, more. split; [reflexivity|]. apply tag_not_nl. exact Htag.
    + eexists _, _. split; [reflexivity|].
      apply tag_not_nl. apply tag_line_startswith.
Qed.

End ReadBack.

(** Round trip: when written blocks, after any number of leading blank
    lines, are followed by the end of input or by a line that is not a tag
    line, [parse] returns exactly the written blocks, a later block
    replacing an earlier one of the same name; whatever follows that line
    is not looked at. *)
Theorem parse_written_blocks f k b bs tail :
  forallb writable_block (b :: bs) = true ->
  ignored_tail tail = true ->
  run (mkFile f (repeat nl k ++ star_lines (b :: bs) ++ tail)) =
  Ok (store_blocks ∅ (b :: bs)).
Proof.
  intros Hall Htail.
  rewrite run_written_prefix; [|exact Hall|].
  - rewrite (data_blocks_loop_stop _ _ _ _
               (parse_data_block_stop f _ tail Htail)).
    reflexivity.
  - eexists _, _. split; [reflexivity|].
    apply tag_not_nl. apply tag_line_startswith.
Qed.

Lemma parse_written_blocks_witness :
  run (mkFile "w.star"
         (repeat nl 1 ++
          star_lines [("a", mkTable ["x"; "y"] [["1"; "2"]; ["_3"; "4"]]);
                      ("b", mkTable ["z"] [])] ++
          ["end of data" +:+ nl; tag_line "c"])) =
  Ok (store_blocks ∅ [("a", mkTable ["x"; "y"] [["1"; "2"]; ["_3"; "4"]]);
                      ("b", mkTable ["z"] [])]).
Proof.
  apply (parse_written_blocks "w.star" 1
           ("a", mkTable ["x"; "y"] [["1"; "2"]; ["_3"; "4"]])
           [("b", mkTable ["z"] [])]
           ["end of data" +:+ nl; tag_line "c"]);
    vm_compute; reflexivity.
Defined.



(** ** Where a block fails *)

Section Failures.

Variables (f : string).



Lemma parse_data_block_body_raises i tag gap body e :
  startswith tag "data_" = true ->
  is_gap gap = true ->
  parse_loop_content (cursor f (i + length gap + 2) body) = Raise e ->
  parse_data_block (cursor f i (tag :: gap ++ loop_line :: body)) = Raise e.
Proof.
  intros Htag Hgap Hbody.
  rewrite parse_data_block_header by assumption.
  unfold bind. rewrite Hbody. reflexivity.
Qed.

Lemma parse_loop_content_no_names i l rest :
  startswith l "_" = false ->
  parse_loop_content (cursor f i (l :: rest)) = Raise missing_descr.
Proof.
  intros Hl. unfold parse_loop_content, bind, while_lines_left.
  rewrite data_names_loop_stop by (simpl; rewrite Hl; reflexivity).
  reflexivity.
Qed.


Lemma parse_loop_content_bad_name i names_lines l rest :
  forallb is_data_name_line names_lines = true ->
  startswith l "_" = true ->
  only_whitespace (slice_from 1 l) = true ->
  parse_loop_content (cursor f i (names_lines ++ l :: rest)) =
  Raise index_out_of_range.
Proof.
  intros Hnames Hl Hw. unfold parse_loop_content, bind, while_lines_left.
  rewrite lines_left_cursor.
  rewrite data_names_loop_lines
    by (try exact Hnames; rewrite length_app; simpl; lia).
  replace (S (length (names_lines ++ l :: rest)) - length names_lines)
    with (S (S (length rest))) by (rewrite length_app; simpl; lia).
  cbn [data_names_loop]. unfold bind.
  rewrite (parse_data_name_no_name f _ l rest Hl Hw). reflexivity.
Qed.


End Failures.

(** ** A block given by its lines, after written blocks *)

Section BlockLines.

Variables (f : string) (k : nat) (bs : list (string * Table)).
Hypothesis Hbs : forallb writable_block bs = true.

Lemma run_raise_in_body tag gap body e :
  startswith tag "data_" = true ->
  is_gap gap = true ->
  (forall i, parse_loop_content (cursor f i body) = Raise e) ->
  run (mkFile f (repeat nl k ++ star_lines bs ++
                 tag :: gap ++ loop_line :: body)) = Raise e.
Proof.
  intros Htag Hgap Hbody.
  apply run_raise_after_written; [exact Hbs | exact Htag |].
  apply parse_data_block_body_raises; [exact Htag | exact Hgap |].
  apply Hbody.
Qed.

End BlockLines.



(** A [loop_] line followed by a line that does not start with an
    underscore makes [parse] fail at the check for an empty list of data
    names, with the [TypeError] of the [StarParseError] built without a
    stream. *)
Theorem parse_loop_without_names f k bs tag gap l rest :
  forallb writable_block bs = true ->
  startswith tag "data_" = true ->
  is_gap gap = true ->
  startswith l "_" = false ->
  run (mkFile f (repeat nl k ++ star_lines bs ++
                 tag :: gap ++ loop_line :: l :: rest)) =
  Raise missing_descr.
Proof.
  intros Hbs Htag Hgap Hl.
  apply run_raise_in_body; try assumption.
  intros i. apply parse_loop_content_no_names. exact Hl.
Qed.


(** A line in the run of data-name lines that has nothing but whitespace
    after its underscore makes [parse] fail with the [IndexError] of
    [split()[0]]. *)
Theorem parse_underscore_line_without_name
    f k bs tag gap names_lines l rest :
  forallb writable_block bs = true ->
  startswith tag "data_" = true ->
  is_gap gap = true ->
  forallb is_data_name_line names_lines = true ->
  startswith l "_" = true ->
  only_whitespace (slice_from 1 l) = true ->
  run (mkFile f (repeat nl k ++ star_lines bs ++
                 tag :: gap ++ loop_line :: names_lines ++ l :: rest)) =
  Raise index_out_of_range.
Proof.
  intros Hbs Htag Hgap Hnames Hl Hw.
  apply run_raise_in_body; try assumption.
  intros i. apply parse_loop_content_bad_name; assumption.
Qed.


(** ** Instances of the theorems on blocks given by their lines *)



Lemma parse_loop_without_names_witness :
  run (mkFile "g.star"
         (repeat nl 0 ++ star_lines [] ++
          tag_line "b" :: [] ++ loop_line :: ("1 2" +:+ nl) :: [nl])) =
  Raise missing_descr.
Proof.
  apply (parse_loop_without_names "g.star" 0 [] (tag_line "b") []
           ("1 2" +:+ nl) [nl]);
    vm_compute; reflexivity.
Defined.


Lemma parse_underscore_line_without_name_witness :
  run (mkFile "g.star"
         (repeat nl 0 ++ star_lines [] ++
          tag_line "b" :: [] ++ loop_line ::
          ["_y" +:+ nl] ++ ("_ " +:+ nl) :: ["1" +:+ nl; nl])) =
  Raise index_out_of_range.
Proof.
  apply (parse_underscore_line_without_name "g.star" 0 [] (tag_line "b") []
           ["_y" +:+ nl] ("_ " +:+ nl) ["1" +:+ nl; nl]);
    vm_compute; reflexivity.
Defined.


(** ** The names bound by the returned mapping *)

Lemma store_blocks_is_Some bs : forall (m : StarFile) block_name,
  is_Some (store_blocks m bs !! block_name) <->
  is_Some (m !! block_name) \/ block_name ∈ map fst bs.
Proof.
  induction bs as [|[n t] bs IH]; intros m block_name.
  - simpl. rewrite elem_of_nil. tauto.
  - cbn [store_blocks fold_left map fst snd].
    change (fold_left (fun m b => <[b.1:=b.2]> m) bs (<[n:=t]> m))
      with (store_blocks (<[n:=t]> m) bs).
    rewrite IH, elem_of_cons, lookup_insert_is_Some.
    destruct (decide (n = block_name)) as [->|Hne]; [tauto|].
    assert (Hne' : block_name <> n) by congruence. tauto.
Qed.

(** The names bound by a returned mapping are exactly the names of the
    data blocks read from the input: no block is lost but by a later block
    of the same name, and no other name is bound. *)
Theorem parse_binds_block_names file (data_blocks : StarFile) :
  run file = Ok data_blocks ->
  exists bs,
    blocks_of file = Ok bs /\
    forall block_name,
      is_Some (data_blocks !! block_name) <-> block_name ∈ map fst bs.
Proof.
  rewrite run_blocks_of.
  destruct (blocks_of file) as [bs| |]; try discriminate.
  intros H. inversion H. subst. clear H.
  exists bs. split; [reflexivity|].
  intros block_name. rewrite store_blocks_is_Some, lookup_empty.
  split; [intros [[x Hx]|H]; [discriminate Hx | exact H] | auto].
Qed.

Lemma parse_binds_block_names_witness :
  exists bs,
    blocks_of duplicate_file = Ok bs /\
    forall block_name,
      is_Some (({[ "a" := mkTable ["x"] [["2"]] ]} : StarFile) !! block_name)
      <-> block_name ∈ map fst bs.
Proof.
  apply (parse_binds_block_names duplicate_file).
  vm_compute. reflexivity.
Defined.

(** ** class StarParseError, built from a cursor *)

Lemma fname_cursor f i ls : fname (cursor f i ls) = f.
Proof. destruct ls; reflexivity. Qed.

(** [StarParseError(stream, descr)], with the cursor of a file after [n]
    calls of [next]: while the cursor is on a line, the exception holds
    the name of the file, the row [n + 1] and the description; once the
    lines are used up, the constructor itself fails with the [TypeError] of
    [row], so an error found at the end of input cannot be built. *)
Theorem StarParseError_at_position file n descr :
  StarParseError_init
    [PyLineStream (Nat.iter n Stream.next (Stream.init file));
     PyString descr] =
  if decide (n < length (file_lines file))
  then Ok (StarParseError (name file) (S n) (PyString descr))
  else Raise (TypeError "'NoneType' object is not subscriptable").
Proof.
  rewrite init_cursor, iter_next_cursor.
  unfold StarParseError_init. rewrite fname_cursor.
  destruct (decide (n < length (file_lines file))) as [Hlt|Hge].
  - rewrite Nat.min_l by lia.
    destruct (drop n (file_lines file)) as [|l rest] eqn:Hdrop.
    + apply (f_equal length) in Hdrop. rewrite length_drop in Hdrop.
      simpl in Hdrop. lia.
    + unfold Stream.row. simpl. do 3 f_equal. lia.
  - rewrite drop_ge by lia. reflexivity.
Qed.

(** ** C7: duplicate block names *)

Section BlockTexts.

Variables (f : string).








End BlockTexts.




